(** * Lotus Hotel: swipe gesture, gallery cursor and saved-items store

    A shallow embedding of the logic in
    [src/components/SwipeCard.tsx] and [src/components/SwipeGallery.tsx]:
    the drag-end handler of a swipe card, the index updater of the gallery
    and the [savedItemsManager] object that keeps the saved cards in
    [localStorage] under one key.

    Handlers are functions on an explicit state that also records what
    they emit (calls to props, toasts, tracked events, timers).  Code
    that touches [localStorage] runs in a small state-and-exception
    monad.  [JSON.parse] and [JSON.stringify] are an interface with two
    laws; a reference codec shows the laws can be met and runs the store
    on concrete texts. *)

From Stdlib Require Import Bool List String Ascii ZArith QArith Qabs Lia.
From Stdlib Require Import DecimalString DecimalPos DecimalZ.
Import ListNotations.

Local Open Scope string_scope.
Local Open Scope Z_scope.

(* ================================================================== *)
(** * JavaScript numbers *)
(* ================================================================== *)

(** A JavaScript number is [NaN], an infinity or a finite value.  Finite
    values are rationals: every finite double is one, and [Math.abs] and
    the comparisons used below are exact on doubles. *)
Module Num.

Inductive number : Type :=
| NaN
| Infinity (negative : bool)
| Fin (q : Q).

Definition of_Z (z : Z) : number := Fin (inject_Z z).

(** [Math.abs]. *)
Definition Math_abs (a : number) : number :=
  match a with
  | NaN => NaN
  | Infinity _ => Infinity false
  | Fin q => Fin (Qabs q)
  end.

(** [a > b]; any comparison with [NaN] is false. *)
Definition gt (a b : number) : bool :=
  match a, b with
  | NaN, _ | _, NaN => false
  | Infinity na, Infinity nb => negb na && nb
  | Infinity na, Fin _ => negb na
  | Fin _, Infinity nb => nb
  | Fin p, Fin q => negb (Qle_bool p q)
  end.

(** [a <= b]. *)
Definition le (a b : number) : bool :=
  match a, b with
  | NaN, _ | _, NaN => false
  | Infinity na, Infinity nb => na || negb nb
  | Infinity na, Fin _ => na
  | Fin _, Infinity nb => negb nb
  | Fin p, Fin q => Qle_bool p q
  end.

(** [a / b] on finite operands, with the IEEE results for a zero
    divisor. *)
Definition div (a b : Q) : number :=
  if Qeq_bool b 0 then
    if Qeq_bool a 0 then NaN else Infinity (negb (Qle_bool 0 a))
  else Fin (a / b).

(** [a * k] for a finite constant [k > 0]. *)
Definition scale (a : number) (k : Q) : number :=
  match a with
  | Fin q => Fin (q * k)
  | other => other
  end.

End Num.
Import Num.

(* ================================================================== *)
(** * Cards *)
(* ================================================================== *)

(** The union type of [SwipeCardData.type]. *)
Inductive CardType : Type :=
| room | restaurant | experience | facility | event.

Definition type_name (t : CardType) : string :=
match t with
| room => "room"
| restaurant => "restaurant"
| experience => "experience"
| facility => "facility"
| event => "event"
end.

(** A number as JSON writes it: [mantissa * 10 ^ exponent]. *)
Record decimal : Type := { mantissa : Z; exponent : Z }.

Record Amenity : Type := { icon : string; name : string }.

(** [interface SwipeCardData]. *)
Record SwipeCardData : Type := {
id : string;
type : CardType;
title : string;
subtitle : option string;
caption : string;
image : string;
price : option decimal;
amenities : option (list Amenity);
tags : option (list string);
roomId : option string;
menuItemId : option string;
experienceId : option string
}.

(* ================================================================== *)
(** * SwipeCard: the drag-end handler *)
(* ================================================================== *)

Module SwipeCard.

Definition SWIPE_THRESHOLD : number := of_Z 100.
Definition SWIPE_VELOCITY : number := of_Z 500.

(** The horizontal components of framer-motion's [PanInfo]. *)
Record PanInfo : Type := { velocity_x : number; offset_x : number }.

(** A finite drag sample. *)
Definition sample (offset velocity : Q) : PanInfo :=
  {| velocity_x := Fin velocity; offset_x := Fin offset |}.

(** The callbacks a card receives through its props. *)
Inductive Call : Type :=
| onSwipeLeft (data : SwipeCardData)
| onSwipeRight (data : SwipeCardData)
| onTap (data : SwipeCardData)
| onBook (data : SwipeCardData).

(** The state a card owns: two React states, the two motion values and
    the calls made to the props so far (oldest first). *)
Record State : Type := {
  isDragging : bool;
  showDetails : bool;
  x : number;
  y : number;
  calls : list Call
}.

Definition setIsDragging (b : bool) (s : State) : State :=
  {| isDragging := b; showDetails := showDetails s;
     x := x s; y := y s; calls := calls s |}.

Definition setShowDetails (b : bool) (s : State) : State :=
  {| isDragging := isDragging s; showDetails := b;
     x := x s; y := y s; calls := calls s |}.

Definition x_set (v : number) (s : State) : State :=
  {| isDragging := isDragging s; showDetails := showDetails s;
     x := v; y := y s; calls := calls s |}.

Definition y_set (v : number) (s : State) : State :=
  {| isDragging := isDragging s; showDetails := showDetails s;
     x := x s; y := v; calls := calls s |}.

Definition call (c : Call) (s : State) : State :=
  {| isDragging := isDragging s; showDetails := showDetails s;
     x := x s; y := y s; calls := calls s ++ [c] |}.

Definition handleDragStart (s : State) : State := setIsDragging true s.

Definition handleDragEnd (data : SwipeCardData) (info : PanInfo)
    (s : State) : State :=
  let s := setIsDragging false s in
  let velocity := velocity_x info in
  let offset := offset_x info in
  if gt (Math_abs velocity) SWIPE_VELOCITY
     || gt (Math_abs offset) SWIPE_THRESHOLD
  then
    let direction :=
      if gt offset (of_Z 0) || gt velocity (of_Z 0)
      then "right" else "left" in
    if String.eqb direction "right" then
      call (onSwipeRight data) (x_set (of_Z 500) s)
    else
      call (onSwipeLeft data) (x_set (of_Z (-500)) s)
  else
    y_set (of_Z 0) (x_set (of_Z 0) s).

Definition handleTap (data : SwipeCardData) (s : State) : State :=
  if negb (isDragging s) then
    call (onTap data) (setShowDetails (negb (showDetails s)) s)
  else s.

Definition handleSkip (data : SwipeCardData) (s : State) : State :=
  call (onSwipeLeft data) (x_set (of_Z (-500)) s).

Definition handleSave (data : SwipeCardData) (s : State) : State :=
  call (onSwipeRight data) (x_set (of_Z 500) s).

(** The decision a handler run took, read off the calls it added to
    those made before. *)
Inductive Decision : Type := CommitRight | CommitLeft | Cancel.

Definition decision (before after : State) : option Decision :=
  match skipn (List.length (calls before)) (calls after) with
  | [] => Some Cancel
  | [onSwipeRight _] => Some CommitRight
  | [onSwipeLeft _] => Some CommitLeft
  | _ => None
  end.

(** The stack effect of a card that is not active:
    [(totalCards - index - 1) * 8]. *)
Definition stackOffset (totalCards index : Z) : Z :=
  (totalCards - index - 1) * 8.

(** The [zIndex] of a rendered card: [index] when it is not active,
    [totalCards - index] when it is. *)
Definition zIndex (isActive : bool) (totalCards index : Z) : Z :=
  if isActive then totalCards - index else index.

(** [getCategoryColor] and [getCategoryLabel]: a [switch] on the type
    string with a [default]. *)
Definition getCategoryColor (ty : string) : string :=
  if String.eqb ty "room" then "bg-blue-500"
  else if String.eqb ty "restaurant" then "bg-orange-500"
  else if String.eqb ty "experience" then "bg-purple-500"
  else if String.eqb ty "facility" then "bg-green-500"
  else if String.eqb ty "event" then "bg-pink-500"
  else "bg-[#D4A14C]".

Definition getCategoryLabel (ty : string) : string :=
  if String.eqb ty "room" then "Room"
  else if String.eqb ty "restaurant" then "Dining"
  else if String.eqb ty "experience" then "Experience"
  else if String.eqb ty "facility" then "Facility"
  else if String.eqb ty "event" then "Event"
  else "Gallery".

(** The label of the booking button of the details overlay. *)
Definition book_button_label (data : SwipeCardData) : string :=
  if String.eqb (type_name (type data)) "room" then "Book Now"
  else if String.eqb (type_name (type data)) "restaurant"
       then "Reserve Table"
  else "Learn More".

End SwipeCard.

(* ================================================================== *)
(** * JavaScript values, exceptions and JSON *)
(* ================================================================== *)

#[local] Unset Elimination Schemes.
(** The values [JSON.parse] can return.  An object is the list of its own
    properties, with distinct keys, in insertion order. *)
Inductive value : Type :=
| VNull
| VBool (b : bool)
| VNum (d : decimal)
| VStr (s : string)
| VArr (elements : list value)
| VObj (props : list (string * value)).
#[local] Set Elimination Schemes.

Inductive exn : Type := SyntaxError | TypeError | DOMException.

(** A computation either returns or throws. *)
Inductive result (A : Type) : Type :=
| Ok (a : A)
| Throw (e : exn).
Arguments Ok {A} a.
Arguments Throw {A} e.

(** The global [JSON] object: [JSON_parse s] is [None] when
    [JSON.parse(s)] throws a [SyntaxError]. *)
Class JSON : Type := {
  JSON_parse : string -> option value;
  JSON_stringify : value -> string
}.

(** What the saved-items store relies on: text written by
    [JSON.stringify] reads back as the value written, and the empty
    text is not JSON. *)
Class JSONLaws (J : JSON) : Prop := {
  parse_stringify : forall v, JSON_parse (JSON_stringify v) = Some v;
  parse_empty : JSON_parse "" = None
}.

Fixpoint lookup (key : string) (props : list (string * value))
    : option value :=
  match props with
  | [] => None
  | (k, v) :: rest => if String.eqb k key then Some v else lookup key rest
  end.

(** [v.key] for a key that no prototype defines (here ["id"] and
    ["type"]): [None] is [undefined]; reading a property of [null]
    throws. *)
Definition get (v : value) (key : string) : result (option value) :=
  match v with
  | VNull => Throw TypeError
  | VObj props => Ok (lookup key props)
  | _ => Ok None
  end.

(** [o === s] for a string [s]. *)
Definition strict_eq_string (o : option value) (s : string) : bool :=
  match o with
  | Some (VStr t) => String.eqb t s
  | _ => false
  end.

Definition is_zero (d : decimal) : bool := Z.eqb (mantissa d) 0.

(** Truthiness, as [!] and [? :] see it; [None] is [undefined]. *)
Definition truthy (o : option value) : bool :=
  match o with
  | None => false
  | Some VNull => false
  | Some (VBool b) => b
  | Some (VNum d) => negb (is_zero d)
  | Some (VStr s) => negb (String.eqb s "")
  | Some (VArr _) => true
  | Some (VObj _) => true
  end.

(** [Array.prototype.find], [some] and [filter] over the elements of an
    array, with a callback that may throw. *)
Fixpoint find_loop (p : value -> result bool) (l : list value)
    : result (option value) :=
  match l with
  | [] => Ok None
  | v :: rest =>
      match p v with
      | Throw e => Throw e
      | Ok true => Ok (Some v)
      | Ok false => find_loop p rest
      end
  end.

Fixpoint some_loop (p : value -> result bool) (l : list value)
    : result bool :=
  match l with
  | [] => Ok false
  | v :: rest =>
      match p v with
      | Throw e => Throw e
      | Ok true => Ok true
      | Ok false => some_loop p rest
      end
  end.

Fixpoint filter_loop (p : value -> result bool) (l : list value)
    : result (list value) :=
  match l with
  | [] => Ok []
  | v :: rest =>
      match p v with
      | Throw e => Throw e
      | Ok keep =>
          match filter_loop p rest with
          | Throw e => Throw e
          | Ok kept => Ok (if keep then v :: kept else kept)
          end
      end
  end.

(** [recv.find(p)] and the like: the receiver comes from [JSON.parse], so
    it has the method only when it is an array; calling a missing method
    throws a [TypeError]. *)
Definition Array_find (recv : value) (p : value -> result bool)
    : result (option value) :=
  match recv with
  | VArr l => find_loop p l
  | _ => Throw TypeError
  end.

Definition Array_some (recv : value) (p : value -> result bool)
    : result bool :=
  match recv with
  | VArr l => some_loop p l
  | _ => Throw TypeError
  end.

Definition Array_filter (recv : value) (p : value -> result bool)
    : result value :=
  match recv with
  | VArr l =>
      match filter_loop p l with
      | Throw e => Throw e
      | Ok kept => Ok (VArr kept)
      end
  | _ => Throw TypeError
  end.

(** [[...recv, v]] for an array [recv]. *)
Definition spread_append (recv v : value) : result value :=
  match recv with
  | VArr l => Ok (VArr (l ++ [v]))
  | _ => Throw TypeError
  end.

(** A card as a JavaScript object; optional fields that are absent leave
    no property. *)
Definition optional {A : Type} (key : string) (f : A -> value)
    (o : option A) : list (string * value) :=
  match o with
  | Some a => [(key, f a)]
  | None => []
  end.

Definition amenity_value (a : Amenity) : value :=
  VObj [("icon", VStr (icon a)); ("name", VStr (name a))].

Definition card_value (c : SwipeCardData) : value :=
  VObj ([("id", VStr (id c));
         ("type", VStr (type_name (type c)));
         ("title", VStr (title c))]
        ++ optional "subtitle" VStr (subtitle c)
        ++ [("caption", VStr (caption c));
            ("image", VStr (image c))]
        ++ optional "price" VNum (price c)
        ++ optional "amenities"
             (fun l => VArr (map amenity_value l)) (amenities c)
        ++ optional "tags" (fun l => VArr (map VStr l)) (tags c)
        ++ optional "roomId" VStr (roomId c)
        ++ optional "menuItemId" VStr (menuItemId c)
        ++ optional "experienceId" VStr (experienceId c)).

(* ================================================================== *)
(** * localStorage *)
(* ================================================================== *)

(** The browser's key-value store: its contents, whether reading it
    throws (storage denied), and which writes it accepts (quota). *)
Record Storage : Type := {
  data : string -> option string;
  getItem_throws : bool;
  setItem_accepts : string -> string -> bool
}.

(** Code that reads and writes the store and may throw. *)
Definition M (A : Type) : Type := Storage -> result A * Storage.

Definition ret {A : Type} (a : A) : M A := fun st => (Ok a, st).

Definition bind {A B : Type} (m : M A) (k : A -> M B) : M B :=
  fun st =>
    match m st with
    | (Ok a, st') => k a st'
    | (Throw e, st') => (Throw e, st')
    end.

Definition lift {A : Type} (r : result A) : M A := fun st => (r, st).

(** [try { body } catch { handler }]. *)
Definition try_catch {A : Type} (body handler : M A) : M A :=
  fun st =>
    match body st with
    | (Ok a, st') => (Ok a, st')
    | (Throw _, st') => handler st'
    end.

Declare Scope js_scope.
Delimit Scope js_scope with js.
Notation "x <- m ;; k" := (bind m (fun x => k))
  (at level 61, m at next level, right associativity) : js_scope.
Notation "m ;; k" := (bind m (fun _ => k))
  (at level 61, right associativity) : js_scope.

Definition localStorage_getItem (key : string) : M (option string) :=
  fun st =>
    if getItem_throws st then (Throw DOMException, st)
    else (Ok (data st key), st).

Definition write (key v : string) (st : Storage) : Storage :=
  {| data := fun k => if String.eqb k key then Some v else data st k;
     getItem_throws := getItem_throws st;
     setItem_accepts := setItem_accepts st |}.

(** A write that is refused throws and leaves the store as it was. *)
Definition localStorage_setItem (key v : string) : M unit :=
  fun st =>
    if setItem_accepts st key v then (Ok tt, write key v st)
    else (Throw DOMException, st).

(* ================================================================== *)
(** * savedItemsManager *)
(* ================================================================== *)

Module savedItemsManager.
Section Manager.
Context {J : JSON}.
Local Open Scope js_scope.

Definition KEY : string := "lotus_saved_items".

(** [JSON.parse(s)]. *)
Definition parse (s : string) : M value :=
  match JSON_parse s with
  | Some v => ret v
  | None => lift (Throw SyntaxError)
  end.

(** [(s) => s.id === itemId] *)
Definition has_id (itemId : string) (s : value) : result bool :=
  match get s "id" with
  | Throw e => Throw e
  | Ok o => Ok (strict_eq_string o itemId)
  end.

(** [(s) => s.id !== itemId] *)
Definition has_other_id (itemId : string) (s : value) : result bool :=
  match get s "id" with
  | Throw e => Throw e
  | Ok o => Ok (negb (strict_eq_string o itemId))
  end.

(** [(s) => s.type === type] *)
Definition has_type (ty : string) (s : value) : result bool :=
  match get s "type" with
  | Throw e => Throw e
  | Ok o => Ok (strict_eq_string o ty)
  end.

(** The declared return type is [SwipeCardData[]], but what comes back
    is whatever the stored text parses to. *)
Definition getSavedItems : M value :=
  try_catch
    (saved <- localStorage_getItem KEY ;;
     match saved with
     | Some s => if truthy (Some (VStr s)) then parse s else ret (VArr [])
     | None => ret (VArr [])
     end)
    (ret (VArr [])).

Definition saveItem (item : SwipeCardData) : M bool :=
  try_catch
    (saved <- getSavedItems ;;
     found <- lift (Array_find saved (has_id (id item))) ;;
     if negb (truthy found) then
       updated <- lift (spread_append saved (card_value item)) ;;
       localStorage_setItem KEY (JSON_stringify updated) ;;
       ret true
     else ret false)
    (ret false).

Definition removeItem (itemId : string) : M bool :=
  try_catch
    (saved <- getSavedItems ;;
     updated <- lift (Array_filter saved (has_other_id itemId)) ;;
     localStorage_setItem KEY (JSON_stringify updated) ;;
     ret true)
    (ret false).

Definition isSaved (itemId : string) : M bool :=
  saved <- getSavedItems ;;
  lift (Array_some saved (has_id itemId)).

Definition getSavedByType (ty : string) : M value :=
  saved <- getSavedItems ;;
  lift (Array_filter saved (has_type ty)).

(** The saved set as a caller sees it: the store can be read and
    [getSavedItems] returns these cards, in this order. *)
Definition stored (st : Storage) (l : list SwipeCardData) : Prop :=
  getItem_throws st = false /\
  getSavedItems st = (Ok (VArr (map card_value l)), st).

(** The read inside [getSavedItems] throws: the store is denied or the
    text under the key is not JSON. *)
Definition read_fails (st : Storage) : Prop :=
  getItem_throws st = true \/
  exists s : string, data st KEY = Some s /\ JSON_parse s = None.

(** The size of the saved set, when [getSavedItems] returns an array. *)
Definition saved_count (st : Storage) : option nat :=
  match getSavedItems st with
  | (Ok (VArr l), _) => Some (List.length l)
  | _ => None
  end.

Definition same_id (itemId : string) (c : SwipeCardData) : bool :=
  String.eqb (id c) itemId.

(** [(s) => s.id === item.id] when [item] is [undefined]: [s.id] is
    read first, then reading [item.id] throws. *)
Definition has_id_of_undefined (s : value) : result bool :=
  match get s "id" with
  | Throw e => Throw e
  | Ok _ => Throw TypeError
  end.

(** [saveItem(undefined)], as the keyboard handler of an empty gallery
    calls it.  [JSON.stringify] writes an [undefined] array element as
    [null]. *)
Definition saveItem_undefined : M bool :=
  try_catch
    (saved <- getSavedItems ;;
     found <- lift (Array_find saved has_id_of_undefined) ;;
     if negb (truthy found) then
       updated <- lift (spread_append saved VNull) ;;
       localStorage_setItem KEY (JSON_stringify updated) ;;
       ret true
     else ret false)
    (ret false).

(** The store can be read and holds an array without a [null] entry. *)
Definition clean (st : Storage) : Prop :=
  getItem_throws st = false /\
  exists saved : list value,
    getSavedItems st = (Ok (VArr saved), st) /\
    Forall (fun v => v <> VNull) saved.

Definition has_type_name (ty : string) (c : SwipeCardData) : bool :=
  String.eqb (type_name (type c)) ty.

(** A sequence of writes through the manager. *)
Inductive StoreOp : Type :=
| save (item : SwipeCardData)
| remove (itemId : string).

Definition apply_op (st : Storage) (op : StoreOp) : Storage :=
  match op with
  | save item => snd (saveItem item st)
  | remove itemId => snd (removeItem itemId st)
  end.

Definition apply_ops (ops : list StoreOp) (st : Storage) : Storage :=
  fold_left apply_op ops st.

End Manager.
End savedItemsManager.

(* ================================================================== *)
(** * SwipeGallery *)
(* ================================================================== *)

Module SwipeGallery.
Section Gallery.
Context {J : JSON}.

(** Calls to the [sonner] toasts. *)
Inductive Toast : Type :=
| toast_info (message : string)
| toast_success (message : string) (description : option string)
    (action_label : option string).

(** What [trackEvent] logs. *)
Record Tracked : Type := {
  eventName : string;
  itemId : string;
  itemType : option string
}.

Inductive ViewMode : Type := swipe | grid.

(** The function passed to [setCurrentIndex] by both swipe handlers,
    closed over [items.length]. *)
Inductive Updater : Type := next_card (length : Z).

(** A callback waiting in the timer queue. *)
Record Timer : Type := { due : Z; updater : Updater }.

(** One gallery on a page: its props and React state, whether it is
    still mounted and listening for keys, the page's timer queue and
    clock, the store, and what it has emitted so far (oldest first).
    [dispatched] lists the updaters handed to [setCurrentIndex]. *)
Record World : Type := {
  items : list SwipeCardData;
  currentIndex : Z;
  viewMode : ViewMode;
  mounted : bool;
  keydown_listener : bool;
  timers : list Timer;
  clock : Z;
  storage : Storage;
  toasts : list Toast;
  tracked : list Tracked;
  dispatched : list Updater
}.

Definition with_index (i : Z) (w : World) : World :=
  {| items := items w; currentIndex := i; viewMode := viewMode w;
     mounted := mounted w; keydown_listener := keydown_listener w;
     timers := timers w; clock := clock w; storage := storage w;
     toasts := toasts w; tracked := tracked w;
     dispatched := dispatched w |}.

Definition with_timers (ts : list Timer) (now : Z) (w : World) : World :=
  {| items := items w; currentIndex := currentIndex w;
     viewMode := viewMode w;
     mounted := mounted w; keydown_listener := keydown_listener w;
     timers := ts; clock := now; storage := storage w;
     toasts := toasts w; tracked := tracked w;
     dispatched := dispatched w |}.

Definition with_storage (st : Storage) (w : World) : World :=
  {| items := items w; currentIndex := currentIndex w;
     viewMode := viewMode w;
     mounted := mounted w; keydown_listener := keydown_listener w;
     timers := timers w; clock := clock w; storage := st;
     toasts := toasts w; tracked := tracked w;
     dispatched := dispatched w |}.

Definition toast (t : Toast) (w : World) : World :=
  {| items := items w; currentIndex := currentIndex w;
     viewMode := viewMode w;
     mounted := mounted w; keydown_listener := keydown_listener w;
     timers := timers w; clock := clock w; storage := storage w;
     toasts := toasts w ++ [t]; tracked := tracked w;
     dispatched := dispatched w |}.

Definition trackEvent (name : string) (item : string)
    (ty : option string) (w : World) : World :=
  {| items := items w; currentIndex := currentIndex w;
     viewMode := viewMode w;
     mounted := mounted w; keydown_listener := keydown_listener w;
     timers := timers w; clock := clock w; storage := storage w;
     toasts := toasts w;
     tracked := tracked w ++
       [{| eventName := name; itemId := item; itemType := ty |}];
     dispatched := dispatched w |}.

Definition note_dispatch (u : Updater) (w : World) : World :=
  {| items := items w; currentIndex := currentIndex w;
     viewMode := viewMode w;
     mounted := mounted w; keydown_listener := keydown_listener w;
     timers := timers w; clock := clock w; storage := storage w;
     toasts := toasts w; tracked := tracked w;
     dispatched := dispatched w ++ [u] |}.

(** [setTimeout(cb, delay)]: the returned handle is dropped, as both
    callers drop it. *)
Definition setTimeout (u : Updater) (delay : Z) (w : World) : World :=
  with_timers (timers w ++ [{| due := clock w + delay; updater := u |}])
    (clock w) w.

Definition SEEN_ALL : Toast :=
  toast_info "You've seen all items! Starting over...".

(** The updater body: [(prev) => { if (prev >= items.length - 1) {
    toast.info(...); return 0; } return prev + 1; }]. *)
Definition run_updater (u : Updater) (w : World) : World :=
  match u with
  | next_card len =>
      let prev := currentIndex w in
      if prev >=? len - 1 then with_index 0 (toast SEEN_ALL w)
      else with_index (prev + 1) w
  end.

(** [setCurrentIndex(updater)].  React runs the updater against the
    state of a mounted component; an update to a component that is gone
    changes nothing here. *)
Definition setCurrentIndex (u : Updater) (w : World) : World :=
  let w := note_dispatch u w in
  if mounted w then run_updater u w else w.

Definition items_length (w : World) : Z := Z.of_nat (List.length (items w)).

Definition handleSwipeLeft (item : SwipeCardData) (w : World) : World :=
  let w := trackEvent "gallery_swipe_left" (id item)
             (Some (type_name (type item))) w in
  setTimeout (next_card (items_length w)) 300 w.

Definition loved (item : SwipeCardData) (emoji : string) : string :=
  "You loved " ++ title item ++ " " ++ emoji.

(** [saveItem] returns a boolean on every store (it never throws), so
    the [Throw] case below is never taken. *)
Definition handleSwipeRight (item : SwipeCardData) (w : World) : World :=
  let (r, st) := savedItemsManager.saveItem item (storage w) in
  let w := with_storage st w in
  let wasAdded := match r with Ok b => b | Throw _ => false end in
  let w :=
    if wasAdded then
      let w := trackEvent "gallery_swipe_right" (id item)
                 (Some (type_name (type item))) w in
      let w := trackEvent ("gallery_save_" ++ type_name (type item))
                 (id item) None w in
      match type item with
      | room =>
          toast (toast_success (loved item "🌸")
                   (Some "Added to your saved rooms") (Some "Book Now")) w
      | restaurant =>
          toast (toast_success (loved item "🍽️")
                   (Some "Added to your saved dining")
                   (Some "Reserve Table")) w
      | experience =>
          toast (toast_success (loved item "✨")
                   (Some "Added to your saved experiences")
                   (Some "Learn More")) w
      | _ =>
          toast (toast_success (loved item "❤️")
                   (Some "Added to your saved items") None) w
      end
    else
      toast (toast_info (title item ++ " is already in your saved items")) w
  in
  setTimeout (next_card (items_length w)) 300 w.

Definition handleReset (w : World) : World :=
  toast (toast_success "Gallery reset!" None None) (with_index 0 w).

(** [((currentIndex + 1) / items.length) * 100] *)
Definition progress (w : World) : number :=
  Num.scale
    (Num.div (inject_Z (currentIndex w + 1)) (inject_Z (items_length w)))
    (inject_Z 100).

(** Unmounting runs the effect cleanups; the only one the component
    registers removes the keydown listener. *)
Definition unmount (w : World) : World :=
  {| items := items w; currentIndex := currentIndex w;
     viewMode := viewMode w;
     mounted := false; keydown_listener := false;
     timers := timers w; clock := clock w; storage := storage w;
     toasts := toasts w; tracked := tracked w;
     dispatched := dispatched w |}.

(** The event loop at time [now]: timers that are due run in the order
    they were set, the others stay queued. *)
Fixpoint fire (now : Z) (ts : list Timer) (w : World) : World :=
  match ts with
  | [] => w
  | t :: rest =>
      if due t <=? now then fire now rest (setCurrentIndex (updater t) w)
      else fire now rest w
  end.

Definition elapse (dt : Z) (w : World) : World :=
  let now := clock w + dt in
  let pending := filter (fun t => negb (due t <=? now)) (timers w) in
  fire now (timers w) (with_timers pending now w).

(** A freshly mounted gallery. *)
Definition mount (cards : list SwipeCardData) (st : Storage) : World :=
  {| items := cards; currentIndex := 0; viewMode := swipe;
     mounted := true; keydown_listener := true;
     timers := []; clock := 0; storage := st;
     toasts := []; tracked := []; dispatched := [] |}.

(** What the timer callback of both swipe handlers does when it runs:
    one cursor advance. *)
Definition advance (w : World) : World :=
  setCurrentIndex (next_card (items_length w)) w.

(** What can happen to a gallery, and a history of such events. *)
Inductive Event : Type :=
| swipe_left (item : SwipeCardData)
| swipe_right (item : SwipeCardData)
| reset
| wait (dt : Z)
| teardown.

Definition step (e : Event) (w : World) : World :=
  match e with
  | swipe_left item => handleSwipeLeft item w
  | swipe_right item => handleSwipeRight item w
  | reset => handleReset w
  | wait dt => elapse dt w
  | teardown => unmount w
  end.

Definition run (es : list Event) (w : World) : World :=
  fold_left (fun w e => step e w) es w.

(** The cursor invariant. *)
Definition in_range (w : World) : Prop :=
  0 <= currentIndex w < items_length w.

(** The invariant of a gallery history: the cursor is in range and every
    queued updater was made for this gallery's item count. *)
Definition well_formed (w : World) : Prop :=
  in_range w /\
  Forall (fun t => updater t = next_card (items_length w)) (timers w).

(** What a gallery handler leaves alone. *)
Definition same_frame (w w' : World) : Prop :=
  items w' = items w /\ mounted w' = mounted w /\ clock w' = clock w /\
  dispatched w' = dispatched w.

(** The timer [t] is due at time [now]. *)
Definition due_by (now : Z) (t : Timer) : bool := due t <=? now.

Definition setViewMode (m : ViewMode) (w : World) : World :=
  {| items := items w; currentIndex := currentIndex w; viewMode := m;
     mounted := mounted w; keydown_listener := keydown_listener w;
     timers := timers w; clock := clock w; storage := storage w;
     toasts := toasts w; tracked := tracked w;
     dispatched := dispatched w |}.

(** [l[i]]: [None] is [undefined]. *)
Definition at_index {A : Type} (l : list A) (i : Z) : option A :=
  if i <? 0 then None else nth_error l (Z.to_nat i).

(** [items[currentIndex]] *)
Definition current_item (w : World) : option SwipeCardData :=
  at_index (items w) (currentIndex w).

(** [Array.prototype.slice(start, end)]: a negative bound counts from
    the end, and both are clamped to the array. *)
Definition slice_bound (len i : Z) : Z :=
  if i <? 0 then Z.max (len + i) 0 else Z.min i len.

Definition slice {A : Type} (l : list A) (start stop : Z) : list A :=
  let len := Z.of_nat (List.length l) in
  let k := slice_bound len start in
  let final := slice_bound len stop in
  firstn (Z.to_nat (final - k)) (skipn (Z.to_nat k) l).

(** The props of one rendered [SwipeCard]. *)
Record CardProps : Type := {
  card_data : SwipeCardData;
  card_index : Z;
  card_totalCards : Z;
  card_isActive : bool
}.

Fixpoint with_positions (total : Z) (index : Z) (l : list SwipeCardData)
    : list CardProps :=
  match l with
  | [] => []
  | c :: rest =>
      {| card_data := c; card_index := index; card_totalCards := total;
         card_isActive := index =? 0 |}
      :: with_positions total (index + 1) rest
  end.

(** The card stack of the swipe view:
    [items.slice(currentIndex, currentIndex + 3).map((item, index) => ...)]
    with [totalCards = Math.min(3, items.length - currentIndex)]. *)
Definition totalCards (w : World) : Z :=
  Z.min 3 (items_length w - currentIndex w).

Definition card_stack (w : World) : list CardProps :=
  with_positions (totalCards w) 0
    (slice (items w) (currentIndex w) (currentIndex w + 3)).

(** [currentIndex >= items.length], the condition of the empty state
    panel with its Start Over button. *)
Definition empty_state_shown (w : World) : bool :=
  currentIndex w >=? items_length w.

(** The body of the preload effect:
    [for (let i = currentIndex + 1;
          i < Math.min(currentIndex + 3, items.length); i++)
       new Image().src = items[i]?.image].
    The result lists the [src] values set, [None] for [undefined]. *)
Fixpoint preload_loop (fuel : nat) (i bound : Z)
    (cards : list SwipeCardData) : list (option string) :=
  match fuel with
  | O => []
  | S fuel =>
      if i <? bound then
        option_map image (at_index cards i)
        :: preload_loop fuel (i + 1) bound cards
      else []
  end.

Definition preloadImages (w : World) : list (option string) :=
  let start := currentIndex w + 1 in
  let bound := Z.min (currentIndex w + 3) (items_length w) in
  preload_loop (Z.to_nat (bound - start)) start bound (items w).

(** The badge colour of a tile in the grid view. *)
Definition grid_badge_color (item : SwipeCardData) : string :=
  if String.eqb (type_name (type item)) "room" then "bg-blue-500"
  else if String.eqb (type_name (type item)) "restaurant"
       then "bg-orange-500"
  else if String.eqb (type_name (type item)) "experience"
       then "bg-purple-500"
  else "bg-[#D4A14C]".

(** What a key press leaves behind: the page, the arguments handed to
    the [onBook] prop, and the exception if the listener threw. *)
Record KeyResult : Type := {
  after : World;
  booked : list (option SwipeCardData);
  thrown : option exn
}.

Definition quiet (w : World) : KeyResult :=
  {| after := w; booked := []; thrown := None |}.

(** [handleSwipeLeft(items[currentIndex])]: with [undefined] the
    argument [item.id] of [trackEvent] throws before anything is done. *)
Definition swipe_left_current (w : World) : KeyResult :=
  match current_item w with
  | Some item => quiet (handleSwipeLeft item w)
  | None => {| after := w; booked := []; thrown := Some TypeError |}
  end.

(** [handleSwipeRight(items[currentIndex])]: with [undefined],
    [saveItem] runs and then [item.id] (after a save) or [item.title]
    (otherwise) throws, before any toast or timer. *)
Definition swipe_right_current (w : World) : KeyResult :=
  match current_item w with
  | Some item => quiet (handleSwipeRight item w)
  | None =>
      let (_, st) := savedItemsManager.saveItem_undefined (storage w) in
      {| after := with_storage st w; booked := [];
         thrown := Some TypeError |}
  end.

Definition handleKeyDown (key : string) (w : World) : KeyResult :=
  match viewMode w with
  | grid => quiet w
  | swipe =>
      if String.eqb key "ArrowLeft" then swipe_left_current w
      else if String.eqb key "ArrowRight" then swipe_right_current w
      else if String.eqb key "Enter" then
        {| after := w; booked := [current_item w]; thrown := None |}
      else quiet w
  end.

(** A [keydown] event on the window reaches the handler only while the
    listener is registered. *)
Definition keydown (key : string) (w : World) : KeyResult :=
  if keydown_listener w then handleKeyDown key w else quiet w.

Definition is_swipe (e : Event) : bool :=
  match e with
  | swipe_left _ | swipe_right _ => true
  | _ => false
  end.

Definition is_swipe_right (e : Event) : bool :=
  match e with
  | swipe_right _ => true
  | _ => false
  end.

(** Swipes and waits, time never running backwards. *)
Definition is_swipe_or_wait (e : Event) : bool :=
  match e with
  | swipe_left _ | swipe_right _ => true
  | wait dt => 0 <=? dt
  | _ => false
  end.

(** A mounted gallery whose queued timers are its own and fall due within
    the delay. *)
Definition pending_ok (w : World) : Prop :=
  mounted w = true /\ well_formed w /\
  Forall (fun t => due t <= clock w + 300) (timers w).

(** Where the cursor will stand, before wrapping, once the queued
    advances have run. *)
Definition owed (w : World) : Z :=
  currentIndex w + Z.of_nat (List.length (timers w)).

(** The state of a gallery without cards along its history. *)
Definition idle (w : World) : Prop :=
  items w = [] /\ currentIndex w = 0 /\
  Forall (fun t => updater t = next_card 0) (timers w).

End Gallery.
End SwipeGallery.

(* ================================================================== *)
(** * A reference JSON codec *)
(* ================================================================== *)

(** A printer for the compact text [JSON.stringify] writes and a reader
    for that text, used to run the store on concrete blobs and to show
    that [JSONLaws] can be met.  Numbers are written in exponent form,
    strings with the quote, the backslash and the control characters
    escaped. *)
Module RefJSON.

Definition dquote : ascii := "034"%char.

Definition print_int (z : Z) : string := NilZero.string_of_int (Z.to_int z).

Definition hex_digit (n : nat) : ascii :=
  match n with
  | 0 => "0" | 1 => "1" | 2 => "2" | 3 => "3" | 4 => "4" | 5 => "5"
  | 6 => "6" | 7 => "7" | 8 => "8" | 9 => "9" | 10 => "a" | 11 => "b"
  | 12 => "c" | 13 => "d" | 14 => "e" | _ => "f"
  end%nat%char.

Definition hex_value (c : ascii) : option nat :=
  (if Ascii.eqb c "0" then Some 0 else if Ascii.eqb c "1" then Some 1
   else if Ascii.eqb c "2" then Some 2 else if Ascii.eqb c "3" then Some 3
   else if Ascii.eqb c "4" then Some 4 else if Ascii.eqb c "5" then Some 5
   else if Ascii.eqb c "6" then Some 6 else if Ascii.eqb c "7" then Some 7
   else if Ascii.eqb c "8" then Some 8 else if Ascii.eqb c "9" then Some 9
   else if Ascii.eqb c "a" then Some 10 else if Ascii.eqb c "b" then Some 11
   else if Ascii.eqb c "c" then Some 12 else if Ascii.eqb c "d" then Some 13
   else if Ascii.eqb c "e" then Some 14 else if Ascii.eqb c "f" then Some 15
   else None)%nat%char.

Definition is_control (c : ascii) : bool := (nat_of_ascii c <? 32)%nat.

Definition escape_char (c : ascii) : string :=
  if Ascii.eqb c dquote then String "\" (String dquote "")
  else if Ascii.eqb c "\" then "\\"
  else if is_control c then
    String "\" (String "u" (String "0" (String "0"
      (String (hex_digit (nat_of_ascii c / 16))
         (String (hex_digit (nat_of_ascii c mod 16)) "")))))
  else String c "".

Fixpoint escape (s : string) : string :=
  match s with
  | EmptyString => ""
  | String c rest => escape_char c ++ escape rest
  end.

Definition quote (s : string) : string :=
  String dquote (escape s ++ String dquote "").

Fixpoint print (v : value) : string :=
  match v with
  | VNull => "null"
  | VBool true => "true"
  | VBool false => "false"
  | VNum d => print_int (mantissa d) ++ "e" ++ print_int (exponent d)
  | VStr s => quote s
  | VArr [] => "[]"
  | VArr (v :: l) =>
      "[" ++ print v ++
      (fix more (l : list value) : string :=
         match l with
         | [] => "]"
         | v :: l => "," ++ print v ++ more l
         end) l
  | VObj [] => "{}"
  | VObj ((k, v) :: l) =>
      "{" ++ quote k ++ ":" ++ print v ++
      (fix more (l : list (string * value)) : string :=
         match l with
         | [] => "}"
         | (k, v) :: l => "," ++ quote k ++ ":" ++ print v ++ more l
         end) l
  end.

(** The next character of a string body: [Some None] at the closing
    quote. *)
Definition read_char (s : string) : option (option ascii * string) :=
  match s with
  | EmptyString => None
  | String c rest =>
      if Ascii.eqb c dquote then Some (None, rest)
      else if Ascii.eqb c "\" then
        match rest with
        | String e rest' =>
            if Ascii.eqb e dquote then Some (Some e, rest')
            else if Ascii.eqb e "\" then Some (Some e, rest')
            else if Ascii.eqb e "u" then
              match rest' with
              | String "0" (String "0" (String h (String l rest''))) =>
                  match hex_value h, hex_value l with
                  | Some a, Some b =>
                      Some (Some (ascii_of_nat (16 * a + b)), rest'')
                  | _, _ => None
                  end
              | _ => None
              end
            else None
        | EmptyString => None
        end
      else if is_control c then None
      else Some (Some c, rest)
  end.

Fixpoint read_string (fuel : nat) (s : string) : option (string * string) :=
  match fuel with
  | O => None
  | S fuel =>
      match read_char s with
      | None => None
      | Some (None, rest) => Some ("", rest)
      | Some (Some c, rest) =>
          match read_string fuel rest with
          | Some (t, rest') => Some (String c t, rest')
          | None => None
          end
      end
  end.

Definition is_int_char (c : ascii) : bool :=
  Ascii.eqb c "-" || ((48 <=? nat_of_ascii c) && (nat_of_ascii c <=? 57))%nat.

(** The longest prefix made of digits and minus signs. *)
Fixpoint span_int (s : string) : string * string :=
  match s with
  | EmptyString => ("", "")
  | String c rest =>
      if is_int_char c then
        let (a, b) := span_int rest in (String c a, b)
      else ("", s)
  end.

Definition read_int (s : string) : option (Z * string) :=
  let (a, b) := span_int s in
  match NilZero.int_of_string a with
  | Some d => Some (Z.of_int d, b)
  | None => None
  end.

Definition read_number (s : string) : option (value * string) :=
  match read_int s with
  | Some (m, String "e" rest) =>
      match read_int rest with
      | Some (e, rest') =>
          Some (VNum {| mantissa := m; exponent := e |}, rest')
      | None => None
      end
  | _ => None
  end.

Definition read_key (s : string) : option (string * string) :=
  match s with
  | String c rest =>
      if Ascii.eqb c dquote then
        match read_string (S (String.length rest)) rest with
        | Some (k, String ":" rest') => Some (k, rest')
        | _ => None
        end
      else None
  | EmptyString => None
  end.

Fixpoint read_value (fuel : nat) (s : string) : option (value * string) :=
  match fuel with
  | O => None
  | S fuel =>
      match s with
      | String "n" (String "u" (String "l" (String "l" rest))) =>
          Some (VNull, rest)
      | String "t" (String "r" (String "u" (String "e" rest))) =>
          Some (VBool true, rest)
      | String "f" (String "a" (String "l" (String "s" (String "e" rest)))) =>
          Some (VBool false, rest)
      | String "[" (String "]" rest) => Some (VArr [], rest)
      | String "[" rest =>
          match read_value fuel rest with
          | Some (v, rest') =>
              match read_elements fuel rest' with
              | Some (l, rest'') => Some (VArr (v :: l), rest'')
              | None => None
              end
          | None => None
          end
      | String "{" (String "}" rest) => Some (VObj [], rest)
      | String "{" rest =>
          match read_key rest with
          | Some (k, rest') =>
              match read_value fuel rest' with
              | Some (v, rest'') =>
                  match read_props fuel rest'' with
                  | Some (l, rest3) => Some (VObj ((k, v) :: l), rest3)
                  | None => None
                  end
              | None => None
              end
          | None => None
          end
      | String c rest =>
          if Ascii.eqb c dquote then
            match read_string (S (String.length rest)) rest with
            | Some (t, rest') => Some (VStr t, rest')
            | None => None
            end
          else read_number s
      | EmptyString => None
      end
  end
with read_elements (fuel : nat) (s : string)
    : option (list value * string) :=
  match fuel with
  | O => None
  | S fuel =>
      match s with
      | String "]" rest => Some ([], rest)
      | String "," rest =>
          match read_value fuel rest with
          | Some (v, rest') =>
              match read_elements fuel rest' with
              | Some (l, rest'') => Some (v :: l, rest'')
              | None => None
              end
          | None => None
          end
      | _ => None
      end
  end
with read_props (fuel : nat) (s : string)
    : option (list (string * value) * string) :=
  match fuel with
  | O => None
  | S fuel =>
      match s with
      | String "}" rest => Some ([], rest)
      | String "," rest =>
          match read_key rest with
          | Some (k, rest') =>
              match read_value fuel rest' with
              | Some (v, rest'') =>
                  match read_props fuel rest'' with
                  | Some (l, rest3) => Some ((k, v) :: l, rest3)
                  | None => None
                  end
              | None => None
              end
          | None => None
          end
      | _ => None
      end
  end.

(** The whole text must be one value. *)
Definition parse (s : string) : option value :=
  match read_value (S (String.length s)) s with
  | Some (v, EmptyString) => Some v
  | _ => None
  end.

(** The text after the first element of an array, and after the first
    property of an object, as [print] writes them. *)
Definition elements_tail : list value -> string :=
  fix more (l : list value) : string :=
    match l with
    | [] => "]"
    | v :: l => "," ++ print v ++ more l
    end.

Definition props_tail : list (string * value) -> string :=
  fix more (l : list (string * value)) : string :=
    match l with
    | [] => "}"
    | (k, v) :: l => "," ++ quote k ++ ":" ++ print v ++ more l
    end.

Fixpoint all_int (s : string) : bool :=
  match s with
  | EmptyString => true
  | String c rest => is_int_char c && all_int rest
  end.

(** The text does not go on with a digit or a minus sign. *)
Definition no_int_head (s : string) : bool :=
  match s with
  | EmptyString => true
  | String c _ => negb (is_int_char c)
  end.

(** The text starts with a digit or a minus sign. *)
Definition int_head (s : string) : bool :=
  match s with
  | EmptyString => false
  | String c _ => is_int_char c
  end.

Definition head_is_not (c : ascii) (s : string) : bool :=
  match s with
  | EmptyString => false
  | String d _ => negb (Ascii.eqb d c)
  end.

(** Reading the text of [v], with enough fuel, gives [v] back and stops
    where the text stops. *)
Definition reads_back (v : value) : Prop :=
  forall (fuel : nat) (rest : string),
    (String.length (print v) <= fuel)%nat ->
    no_int_head rest = true ->
    read_value fuel (print v ++ rest) = Some (v, rest).

#[export] Instance codec : JSON :=
  {| JSON_parse := parse; JSON_stringify := print |}.

End RefJSON.

(* ================================================================== *)
(** * Sample data *)
(* ================================================================== *)

Module Sample.

Definition lotus_suite : SwipeCardData :=
  {| id := "room-101"; type := room; title := "Lotus Suite";
     subtitle := Some "Garden wing"; caption := "A quiet suite";
     image := "/lotus_suite.jpg";
     price := Some {| mantissa := 4500; exponent := 0 |};
     amenities := Some [{| icon := "wifi"; name := "Wi-Fi" |}];
     tags := Some ["vip"; "quiet"];
     roomId := Some "101"; menuItemId := None; experienceId := None |}.

(** Another snapshot with the identifier of [lotus_suite]. *)
Definition lotus_suite_again : SwipeCardData :=
  {| id := "room-101"; type := room; title := "Lotus Suite (updated)";
     subtitle := None; caption := "A quiet suite, renovated";
     image := "/lotus_suite_2.jpg"; price := None;
     amenities := None; tags := None;
     roomId := Some "101"; menuItemId := None; experienceId := None |}.

Definition rooftop : SwipeCardData :=
  {| id := "dining-7"; type := restaurant; title := "Rooftop Grill";
     subtitle := None; caption := "Dinner above the city";
     image := "/rooftop.jpg"; price := None;
     amenities := None; tags := None;
     roomId := None; menuItemId := Some "7"; experienceId := None |}.

(** A store that can be read, takes every write and holds nothing. *)
Definition empty_storage : Storage :=
  {| data := fun _ => None;
     getItem_throws := false;
     setItem_accepts := fun _ _ => true |}.

(** The same store with the text [s] under the key. *)
Definition holding (s : string) : Storage :=
  write savedItemsManager.KEY s empty_storage.

(** A store whose text is not JSON. *)
Definition corrupt_storage : Storage := holding "{oops".

(** A store whose text is JSON but no array. *)
Definition null_storage : Storage := holding "null".

(** A store that cannot be read but takes writes. *)
Definition denied_storage : Storage :=
  {| data := fun _ => None;
     getItem_throws := true;
     setItem_accepts := fun _ _ => true |}.

(** A card in the middle of a drag. *)
Definition dragging : SwipeCard.State :=
  {| SwipeCard.isDragging := true; SwipeCard.showDetails := false;
     SwipeCard.x := Fin (80 # 1); SwipeCard.y := Fin (3 # 1);
     SwipeCard.calls := [] |}.

(** A store whose array has a [null] entry. *)
Definition poisoned_storage : Storage := holding "[null]".

(** A store that can be read, holds nothing and refuses every write. *)
Definition full_storage : Storage :=
  {| data := fun _ => None;
     getItem_throws := false;
     setItem_accepts := fun _ _ => false |}.

(** A store holding three cards, as the reference codec writes them. *)
Definition three_saved : Storage :=
  holding
    (RefJSON.print
       (VArr (map card_value [lotus_suite; rooftop; lotus_suite_again]))).

End Sample.

(* ================================================================== *)
(** * Facts about numbers *)
(* ================================================================== *)

Local Open Scope list_scope.

Lemma gt_fin (p q : Q) : Num.gt (Fin p) (Fin q) = true <-> (q < p)%Q.
Proof.
  unfold Num.gt. rewrite negb_true_iff. split; intro H.
  - apply Qnot_le_lt. intro Hle. apply Qle_bool_iff in Hle. congruence.
  - destruct (Qle_bool p q) eqn:E; [|reflexivity].
    apply Qle_bool_iff in E. exfalso. apply (Qlt_not_le _ _ H E).
Qed.

Lemma gt_fin_false (p q : Q) : Num.gt (Fin p) (Fin q) = false <-> (p <= q)%Q.
Proof. unfold Num.gt. rewrite negb_false_iff. apply Qle_bool_iff. Qed.

(** On every pair of numbers, [a <= b] excludes [a > b]. *)
Lemma le_not_gt (a b : number) : Num.le a b = true -> Num.gt a b = false.
Proof.
  destruct a as [|na|p], b as [|nb|q]; simpl; try congruence.
  - destruct na, nb; simpl; congruence.
  - intros ->. reflexivity.
  - destruct nb; simpl; congruence.
  - intros ->. reflexivity.
Qed.

(* ================================================================== *)
(** * The drag-end handler *)
(* ================================================================== *)

Section DragEnd.
Import SwipeCard.

Variable data : SwipeCardData.
Variable s : State.

Lemma decision_same (a b : State) :
  calls b = calls a -> decision a b = Some Cancel.
Proof.
  intro E. unfold decision. rewrite E, skipn_all. reflexivity.
Qed.

Lemma decision_added (a b : State) (c : Call) :
  calls b = calls a ++ [c] ->
  decision a b =
    match c with
    | onSwipeRight _ => Some CommitRight
    | onSwipeLeft _ => Some CommitLeft
    | _ => None
    end.
Proof.
  intro E. unfold decision. rewrite E, skipn_app, skipn_all, Nat.sub_diag.
  simpl. destruct c; reflexivity.
Qed.

(** The strength test of the handler on a finite sample. *)
Lemma strong_enough_iff (offset velocity : Q) :
  Num.gt (Math_abs (Fin velocity)) SWIPE_VELOCITY
  || Num.gt (Math_abs (Fin offset)) SWIPE_THRESHOLD = true
  <-> (500 < Qabs velocity \/ 100 < Qabs offset)%Q.
Proof.
  rewrite orb_true_iff. unfold SWIPE_VELOCITY, SWIPE_THRESHOLD, of_Z.
  simpl Math_abs. rewrite !gt_fin. reflexivity.
Qed.

Lemma rightward_iff (offset velocity : Q) :
  Num.gt (Fin offset) (of_Z 0) || Num.gt (Fin velocity) (of_Z 0) = true
  <-> (0 < offset \/ 0 < velocity)%Q.
Proof.
  rewrite orb_true_iff. unfold of_Z. rewrite !gt_fin. reflexivity.
Qed.

(** A sample that is neither a number above a threshold cancels: this
    covers [NaN] components as well as small finite ones. *)
Lemma weak_drag_resets (info : PanInfo) :
  Num.gt (Math_abs (velocity_x info)) SWIPE_VELOCITY = false ->
  Num.gt (Math_abs (offset_x info)) SWIPE_THRESHOLD = false ->
  handleDragEnd data info s =
    {| isDragging := false; showDetails := showDetails s;
       x := of_Z 0; y := of_Z 0; calls := calls s |}.
Proof.
  intros Hv Ho. unfold handleDragEnd. rewrite Hv, Ho. reflexivity.
Qed.

(** C1.  A released drag whose offset is at most 100 in absolute value
    and whose velocity is at most 500 in absolute value is cancelled: the
    handler calls neither [onSwipeLeft] nor [onSwipeRight] (no call is
    added at all) and sets both motion values [x] and [y] to 0. *)
Theorem small_drag_cancels (offset velocity : Q) :
  (Qabs offset <= 100)%Q ->
  (Qabs velocity <= 500)%Q ->
  let s' := handleDragEnd data (sample offset velocity) s in
  decision s s' = Some Cancel /\
  calls s' = calls s /\
  x s' = of_Z 0 /\
  y s' = of_Z 0.
Proof.
  intros Ho Hv s'.
  assert (E : s' = {| isDragging := false; showDetails := showDetails s;
                      x := of_Z 0; y := of_Z 0; calls := calls s |}).
  { apply weak_drag_resets; simpl; unfold SWIPE_VELOCITY, SWIPE_THRESHOLD,
      of_Z; apply gt_fin_false; assumption. }
  rewrite E. repeat split. apply decision_same. reflexivity.
Qed.

(** C2.  A released drag that is fast (|velocity| > 500) or long
    (|offset| > 100) commits.  It commits to the right exactly when the
    offset or the velocity is positive: then [onSwipeRight] is the one
    call added and [x] is sent to 500.  Otherwise it commits to the left:
    [onSwipeLeft] is the one call added and [x] is sent to -500. *)
Theorem strong_drag_commits (offset velocity : Q) :
  (500 < Qabs velocity \/ 100 < Qabs offset)%Q ->
  let s' := handleDragEnd data (sample offset velocity) s in
  (decision s s' = Some CommitRight <-> (0 < offset \/ 0 < velocity)%Q) /\
  (decision s s' = Some CommitLeft <-> ~ (0 < offset \/ 0 < velocity)%Q) /\
  ((0 < offset \/ 0 < velocity)%Q ->
     calls s' = calls s ++ [onSwipeRight data] /\ x s' = of_Z 500) /\
  (~ (0 < offset \/ 0 < velocity)%Q ->
     calls s' = calls s ++ [onSwipeLeft data] /\ x s' = of_Z (-500)).
Proof.
  intros Hstrong s'.
  apply strong_enough_iff in Hstrong.
  destruct (Num.gt (Fin offset) (of_Z 0) || Num.gt (Fin velocity) (of_Z 0))
    eqn:Hdir.
  - assert (Hr : (0 < offset \/ 0 < velocity)%Q)
      by (apply rightward_iff; exact Hdir).
    assert (E : s' = call (onSwipeRight data)
                       (x_set (of_Z 500) (setIsDragging false s))).
    { unfold s', handleDragEnd. simpl velocity_x. simpl offset_x.
      rewrite Hstrong, Hdir. reflexivity. }
    assert (D : decision s s' = Some CommitRight).
    { rewrite (decision_added s s' (onSwipeRight data)); [reflexivity|].
      rewrite E. reflexivity. }
    rewrite D. repeat split; try (intros; rewrite E; reflexivity);
      try tauto; try discriminate.
  - assert (Hl : ~ (0 < offset \/ 0 < velocity)%Q).
    { intro H. apply rightward_iff in H. congruence. }
    assert (E : s' = call (onSwipeLeft data)
                       (x_set (of_Z (-500)) (setIsDragging false s))).
    { unfold s', handleDragEnd. simpl velocity_x. simpl offset_x.
      rewrite Hstrong, Hdir. reflexivity. }
    assert (D : decision s s' = Some CommitLeft).
    { rewrite (decision_added s s' (onSwipeLeft data)); [reflexivity|].
      rewrite E. reflexivity. }
    rewrite D. repeat split; try (intros; rewrite E; reflexivity);
      try tauto; try discriminate.
Qed.

End DragEnd.

(* ================================================================== *)
(** * The gallery cursor *)
(* ================================================================== *)

Lemma geb_true_iff (a b : Z) : (a >=? b) = true <-> b <= a.
Proof. rewrite Z.geb_leb. apply Z.leb_le. Qed.

Lemma geb_false_iff (a b : Z) : (a >=? b) = false <-> a < b.
Proof. rewrite Z.geb_leb. apply Z.leb_gt. Qed.

Section Cursor.
Import SwipeGallery.
Context {J : JSON}.

Lemma advance_spec (w : World) :
  mounted w = true ->
  let wrap := currentIndex w >=? items_length w - 1 in
  currentIndex (advance w) = (if wrap then 0 else currentIndex w + 1) /\
  toasts (advance w) = toasts w ++ (if wrap then [SEEN_ALL] else []) /\
  items (advance w) = items w /\
  mounted (advance w) = true.
Proof.
  intros Hm wrap. unfold advance, setCurrentIndex. simpl mounted.
  rewrite Hm. unfold run_updater. simpl currentIndex. fold wrap.
  destruct wrap; simpl; rewrite ?app_nil_r; auto.
Qed.

Lemma items_length_advance (w : World) :
  mounted w = true -> items_length (advance w) = items_length w.
Proof.
  intro Hm. unfold items_length.
  destruct (advance_spec w Hm) as (_ & _ & -> & _). reflexivity.
Qed.

(** Below the last card, [k] advances move the cursor [k] cards on and
    say nothing. *)
Lemma advance_steps (k : nat) (w : World) :
  mounted w = true ->
  currentIndex w + Z.of_nat k <= items_length w - 1 ->
  let w' := Nat.iter k advance w in
  currentIndex w' = currentIndex w + Z.of_nat k /\
  toasts w' = toasts w /\
  items w' = items w /\
  mounted w' = true.
Proof.
  intros Hm. induction k as [|k IH]; intros Hk.
  - simpl. repeat split; auto. lia.
  - cbn zeta. rewrite Nat.iter_succ.
    destruct IH as (Hi & Ht & Hit & Hm'); [lia|].
    set (v := Nat.iter k advance w) in *.
    destruct (advance_spec v Hm') as (Ai & At & Ait & Am).
    assert (L : items_length v = items_length w)
      by (unfold items_length; rewrite Hit; reflexivity).
    rewrite L, Hi in Ai, At.
    replace (currentIndex w + Z.of_nat k >=? items_length w - 1)
      with false in * by (symmetry; apply geb_false_iff; lia).
    rewrite Ai, At, Ait, Am, app_nil_r. repeat split; auto. lia.
Qed.

(** On the last card one advance wraps and says so once. *)
Lemma advance_wrap (w : World) :
  mounted w = true ->
  currentIndex w = items_length w - 1 ->
  currentIndex (advance w) = 0 /\
  toasts (advance w) = toasts w ++ [SEEN_ALL] /\
  items (advance w) = items w /\
  mounted (advance w) = true.
Proof.
  intros Hm Hi. destruct (advance_spec w Hm) as (Ai & At & Ait & Am).
  replace (currentIndex w >=? items_length w - 1) with true in *
    by (symmetry; apply geb_true_iff; lia).
  auto.
Qed.

(** C5.  In a gallery of three cards starting on the first, the first
    and second advance move to the second and third card without any
    notice, and the third advance returns to the first card and emits
    the seen-all notice, the only one.  In general, on a mounted gallery
    whose cursor is in range, an advance sets the index to
    [(currentIndex + 1) mod total] and emits the seen-all notice exactly
    when it wraps; and [total] consecutive advances (one full pass) come
    back to the same card having emitted the notice exactly once. *)
Theorem advance_wraps_once_per_pass :
  (forall (c1 c2 c3 : SwipeCardData) (st : Storage),
     let w0 := mount [c1; c2; c3] st in
     let w1 := advance w0 in
     let w2 := advance w1 in
     let w3 := advance w2 in
     currentIndex w0 = 0 /\
     (currentIndex w1 = 1 /\ toasts w1 = []) /\
     (currentIndex w2 = 2 /\ toasts w2 = []) /\
     (currentIndex w3 = 0 /\ toasts w3 = [SEEN_ALL])) /\
  (forall w : World,
     mounted w = true ->
     in_range w ->
     let total := items_length w in
     currentIndex (advance w) = (currentIndex w + 1) mod total /\
     toasts (advance w) =
       toasts w ++
       (if currentIndex w + 1 =? total then [SEEN_ALL] else []) /\
     let w' := Nat.iter (Z.to_nat total) advance w in
     currentIndex w' = currentIndex w /\
     toasts w' = toasts w ++ [SEEN_ALL]).
Proof.
  split.
  - intros. repeat split; reflexivity.
  - intros w Hm [Hlo Hhi] total. split; [|split].
    + destruct (advance_spec w Hm) as (Ai & _). rewrite Ai. fold total.
      destruct (currentIndex w >=? total - 1) eqn:E.
      * apply geb_true_iff in E.
        replace (currentIndex w + 1) with total by lia.
        symmetry. apply Z.mod_same. lia.
      * apply geb_false_iff in E.
        symmetry. apply Z.mod_small. lia.
    + destruct (advance_spec w Hm) as (_ & At & _). rewrite At. fold total.
      destruct (currentIndex w >=? total - 1) eqn:E.
      * apply geb_true_iff in E.
        replace (currentIndex w + 1 =? total) with true
          by (symmetry; apply Z.eqb_eq; lia). reflexivity.
      * apply geb_false_iff in E.
        replace (currentIndex w + 1 =? total) with false
          by (symmetry; apply Z.eqb_neq; lia). reflexivity.
    + intro w'.
      set (a := Z.to_nat (total - 1 - currentIndex w)).
      set (b := Z.to_nat (currentIndex w)).
      assert (Hsplit : Z.to_nat total = (b + (1 + a))%nat) by (unfold a, b; lia).
      unfold w'. rewrite Hsplit, Nat.iter_add, Nat.iter_add.
      destruct (advance_steps a w Hm) as (Hi1 & Ht1 & Hit1 & Hm1);
        [unfold a; fold total; lia|].
      set (v1 := Nat.iter a advance w) in *.
      assert (L1 : items_length v1 = total)
        by (unfold total, items_length; rewrite Hit1; reflexivity).
      destruct (advance_wrap v1 Hm1) as (Hi2 & Ht2 & Hit2 & Hm2);
        [rewrite Hi1, L1; unfold a; lia|].
      change (Nat.iter 1 advance v1) with (advance v1).
      set (v2 := advance v1) in *.
      assert (L2 : items_length v2 = total)
        by (unfold items_length; rewrite Hit2; exact L1).
      destruct (advance_steps b v2 Hm2) as (Hi3 & Ht3 & _ & _);
        [rewrite Hi2, L2; unfold b; lia|].
      rewrite Hi3, Ht3, Hi2, Ht2, Ht1. split; [unfold b; lia|reflexivity].
Qed.

End Cursor.

(* ================================================================== *)
(** * The cursor invariant and the timers *)
(* ================================================================== *)

Section Timers.
Import SwipeGallery.
Context {J : JSON}.

Lemma handleSwipeLeft_spec (item : SwipeCardData) (w : World) :
  let w' := handleSwipeLeft item w in
  same_frame w w' /\ currentIndex w' = currentIndex w /\
  timers w' =
    timers w ++
    [{| due := clock w + 300; updater := next_card (items_length w) |}].
Proof. repeat split. Qed.

Lemma handleSwipeRight_spec (item : SwipeCardData) (w : World) :
  let w' := handleSwipeRight item w in
  same_frame w w' /\ currentIndex w' = currentIndex w /\
  timers w' =
    timers w ++
    [{| due := clock w + 300; updater := next_card (items_length w) |}].
Proof.
  unfold handleSwipeRight.
  destruct (savedItemsManager.saveItem item (storage w)) as [[[|]|e] st];
    destruct (type item); repeat split.
Qed.

Lemma setCurrentIndex_frame (u : Updater) (w : World) :
  let w' := setCurrentIndex u w in
  items w' = items w /\ mounted w' = mounted w /\ clock w' = clock w /\
  timers w' = timers w /\ dispatched w' = dispatched w ++ [u].
Proof.
  unfold setCurrentIndex. simpl mounted. destruct (mounted w) eqn:Hm.
  - destruct u as [len]. unfold run_updater. simpl currentIndex.
    destruct (currentIndex w >=? len - 1); simpl; auto.
  - simpl. auto.
Qed.

Lemma setCurrentIndex_in_range (w : World) :
  in_range w -> in_range (setCurrentIndex (next_card (items_length w)) w).
Proof.
  unfold in_range, items_length, setCurrentIndex. simpl mounted.
  intros [Hlo Hhi]. destruct (mounted w).
  - unfold run_updater. simpl currentIndex.
    destruct (currentIndex w >=? _) eqn:E; simpl.
    + lia.
    + apply geb_false_iff in E. lia.
  - simpl. lia.
Qed.

(** Running the timers that are due hands each updater to
    [setCurrentIndex], in queue order, and touches nothing else. *)
Lemma fire_spec (now : Z) (ts : list Timer) (w : World) :
  let w' := fire now ts w in
  items w' = items w /\ mounted w' = mounted w /\ clock w' = clock w /\
  timers w' = timers w /\
  dispatched w' = dispatched w ++ map updater (filter (due_by now) ts).
Proof.
  revert w. induction ts as [|t ts IH]; intro w; simpl.
  - rewrite app_nil_r. auto.
  - unfold due_by at 1. destruct (due t <=? now).
    + destruct (IH (setCurrentIndex (updater t) w)) as (A & B & C & D & E).
      destruct (setCurrentIndex_frame (updater t) w) as (A' & B' & C' & D' & E').
      rewrite A, B, C, D, E, A', B', C', D', E'. simpl.
      rewrite <- app_assoc. auto.
    + apply IH.
Qed.

Lemma fire_in_range (now : Z) (ts : list Timer) (w : World) :
  Forall (fun t => updater t = next_card (items_length w)) ts ->
  in_range w -> in_range (fire now ts w).
Proof.
  revert w. induction ts as [|t ts IH]; intros w Hts Hw; simpl; auto.
  inversion Hts as [|? ? Ht Hrest]; subst.
  destruct (due t <=? now); [|auto].
  apply IH.
  - destruct (setCurrentIndex_frame (updater t) w) as (A & _).
    unfold items_length in *. rewrite A. exact Hrest.
  - rewrite Ht. apply setCurrentIndex_in_range. exact Hw.
Qed.

Lemma elapse_spec (dt : Z) (w : World) :
  let w' := elapse dt w in
  let now := clock w + dt in
  items w' = items w /\ mounted w' = mounted w /\ clock w' = now /\
  timers w' = filter (fun t => negb (due_by now t)) (timers w) /\
  dispatched w' =
    dispatched w ++ map updater (filter (due_by now) (timers w)).
Proof.
  unfold elapse.
  destruct (fire_spec (clock w + dt) (timers w)
              (with_timers
                 (filter (fun t => negb (due t <=? clock w + dt)) (timers w))
                 (clock w + dt) w)) as (A & B & C & D & E).
  simpl in *. auto.
Qed.

Lemma step_well_formed (e : Event) (w : World) :
  well_formed w -> well_formed (step e w).
Proof.
  intros [Hr Ht]. destruct e as [item|item| |dt|]; simpl.
  - split; [exact Hr|]. simpl. apply Forall_app. split; [exact Ht|].
    constructor; [reflexivity|constructor].
  - destruct (handleSwipeRight_spec item w) as ((A & _) & B & C).
    unfold well_formed, in_range, items_length in *.
    rewrite A, B, C. split; [exact Hr|].
    apply Forall_app. split; [exact Ht|].
    constructor; [reflexivity|constructor].
  - split; [|exact Ht]. unfold in_range in *. simpl.
    unfold items_length in *. simpl. lia.
  - destruct (elapse_spec dt w) as (A & _ & _ & D & _).
    assert (L : items_length (elapse dt w) = items_length w)
      by (unfold items_length; rewrite A; reflexivity).
    split.
    + unfold elapse. apply fire_in_range; [exact Ht|exact Hr].
    + rewrite L, D. apply Forall_forall. intros t Hin.
      apply filter_In in Hin. destruct Hin as [Hin _].
      rewrite Forall_forall in Ht. apply Ht. exact Hin.
  - split; [exact Hr|exact Ht].
Qed.

Lemma run_well_formed (es : list Event) (w : World) :
  well_formed w -> well_formed (run es w).
Proof.
  revert w. induction es as [|e es IH]; intros w Hw; simpl; auto.
  apply IH, step_well_formed, Hw.
Qed.

(** The progress of a cursor in range is a percentage of a ratio in
    (0, 1]. *)
Lemma progress_in_range (w : World) :
  in_range w ->
  let r := (inject_Z (currentIndex w + 1) / inject_Z (items_length w))%Q in
  progress w = Fin (r * inject_Z 100) /\ (0 < r)%Q /\ (r <= 1)%Q.
Proof.
  intros [Hlo Hhi] r.
  assert (Hpos : (0 < inject_Z (items_length w))%Q).
  { change 0%Q with (inject_Z 0). rewrite <- Zlt_Qlt. lia. }
  split; [|split].
  - unfold progress, Num.div.
    destruct (Qeq_bool (inject_Z (items_length w)) 0) eqn:E.
    + apply Qeq_bool_iff in E. rewrite E in Hpos.
      exfalso. apply (Qlt_irrefl 0). exact Hpos.
    + reflexivity.
  - unfold r. apply Qlt_shift_div_l; [exact Hpos|].
    rewrite Qmult_0_l. change 0%Q with (inject_Z 0). rewrite <- Zlt_Qlt. lia.
  - unfold r. apply Qle_shift_div_r; [exact Hpos|].
    rewrite Qmult_1_l. rewrite <- Zle_Qle. lia.
Qed.

(** C8.  In a gallery of at least one card a reset puts the cursor at 0,
    which is in range; and from a cursor in range, an advance keeps it in
    range, an advance from the last card of a mounted gallery lands on 0,
    and the ratio [(currentIndex + 1) / total], which the component shows
    as a percentage, is above 0 and at most 1. *)
Theorem cursor_stays_in_range (w : World) :
  1 <= items_length w ->
  (currentIndex (handleReset w) = 0 /\ in_range (handleReset w)) /\
  (in_range w ->
     in_range (advance w) /\
     (mounted w = true -> currentIndex w = items_length w - 1 ->
        currentIndex (advance w) = 0) /\
     let r := (inject_Z (currentIndex w + 1) / inject_Z (items_length w))%Q in
     progress w = Fin (r * inject_Z 100) /\ (0 < r)%Q /\ (r <= 1)%Q).
Proof.
  intro Htotal. split; [|intro Hr; split; [|split]].
  - split; [reflexivity|]. unfold in_range, items_length in *. simpl. lia.
  - apply setCurrentIndex_in_range. exact Hr.
  - intros Hm Hlast. apply advance_wrap; assumption.
  - apply progress_in_range. exact Hr.
Qed.

(** X19.  The invariant holds along every history of a gallery mounted
    with at least one card, and so does the bound on the progress
    ratio. *)
Corollary history_in_range (cards : list SwipeCardData) (st : Storage)
    (es : list Event) :
  cards <> [] ->
  let w := run es (mount cards st) in
  in_range w /\
  exists r : Q, progress w = Fin (r * inject_Z 100) /\ (0 < r <= 1)%Q.
Proof.
  intros Hne w.
  assert (Hw : well_formed w).
  { apply run_well_formed. split; [|constructor].
    unfold in_range, items_length. simpl.
    destruct cards; [congruence|]. simpl List.length. lia. }
  destruct Hw as [Hr _]. split; [exact Hr|].
  destruct (progress_in_range w Hr) as (P & A & B).
  eexists. split; [exact P|]. split; assumption.
Qed.

(** Unmounting leaves the timer queue as it is. *)
Lemma unmount_keeps_timers (w : World) :
  timers (unmount w) = timers w /\ clock (unmount w) = clock w /\
  dispatched (unmount w) = dispatched w /\ mounted (unmount w) = false.
Proof. repeat split. Qed.

(** A timer set by a swipe is still queued, whatever happened to the
    component, until its delay has passed, and it runs once it has. *)
Lemma swipe_timer_fires (commit : SwipeCardData -> World -> World)
    (item : SwipeCardData) (w : World) (d1 d2 : Z) :
  (let w' := commit item w in
   same_frame w w' /\ currentIndex w' = currentIndex w /\
   timers w' =
     timers w ++
     [{| due := clock w + 300; updater := next_card (items_length w) |}]) ->
  0 <= d1 < 300 ->
  300 <= d1 + d2 ->
  let t := {| due := clock w + 300; updater := next_card (items_length w) |} in
  let gone := unmount (elapse d1 (commit item w)) in
  mounted gone = false /\
  In t (timers gone) /\
  exists fired : list Updater,
    dispatched (elapse d2 gone) = dispatched gone ++ fired /\
    In (next_card (items_length w)) fired.
Proof.
  intros ((_ & _ & Hc & _) & _ & Ht) Hd1 Hd2 t gone.
  destruct (elapse_spec d1 (commit item w)) as (_ & _ & C1 & T1 & _).
  assert (Hin : In t (timers gone)).
  { unfold gone. simpl timers. rewrite T1. apply filter_In. split.
    - rewrite Ht. apply in_or_app. right. left. reflexivity.
    - unfold due_by, t. simpl due. rewrite Hc.
      apply negb_true_iff, Z.leb_gt. lia. }
  split; [reflexivity|]. split; [exact Hin|].
  destruct (elapse_spec d2 gone) as (_ & _ & _ & _ & D2).
  eexists. split; [exact D2|].
  change (next_card (items_length w)) with (updater t).
  apply in_map, filter_In. split; [exact Hin|].
  unfold due_by, t, gone. simpl due. simpl clock. rewrite C1, Hc.
  apply Z.leb_le. lia.
Qed.

(** C9 (as the code has it).  Both swipe handlers queue the cursor
    advance with a bare [setTimeout] of 300 and keep no handle to it, and
    unmounting cancels nothing: after a swipe, any wait shorter than the
    delay and an unmount, the callback is still in the timer queue of the
    unmounted gallery, and once the delay has passed it runs and hands
    its updater to [setCurrentIndex]. *)
Theorem swipe_timer_outlives_unmount (item : SwipeCardData) (w : World)
    (d1 d2 : Z) :
  0 <= d1 < 300 ->
  300 <= d1 + d2 ->
  let t := {| due := clock w + 300; updater := next_card (items_length w) |} in
  (let gone := unmount (elapse d1 (handleSwipeLeft item w)) in
   mounted gone = false /\
   In t (timers gone) /\
   exists fired : list Updater,
     dispatched (elapse d2 gone) = dispatched gone ++ fired /\
     In (next_card (items_length w)) fired) /\
  (let gone := unmount (elapse d1 (handleSwipeRight item w)) in
   mounted gone = false /\
   In t (timers gone) /\
   exists fired : list Updater,
     dispatched (elapse d2 gone) = dispatched gone ++ fired /\
     In (next_card (items_length w)) fired).
Proof.
  intros Hd1 Hd2 t. split.
  - apply (swipe_timer_fires handleSwipeLeft); auto.
    apply handleSwipeLeft_spec.
  - apply (swipe_timer_fires handleSwipeRight); auto.
    apply handleSwipeRight_spec.
Qed.

End Timers.

(* ================================================================== *)
(** * The saved-items store *)
(* ================================================================== *)

Section Store.
Import savedItemsManager.
Context {J : JSON}.

(** ** Callbacks on cards and on arbitrary entries *)

Lemma has_id_card (itemId : string) (c : SwipeCardData) :
  has_id itemId (card_value c) = Ok (same_id itemId c).
Proof. reflexivity. Qed.

Lemma has_other_id_card (itemId : string) (c : SwipeCardData) :
  has_other_id itemId (card_value c) = Ok (negb (same_id itemId c)).
Proof. reflexivity. Qed.

Lemma has_type_card (ty : string) (c : SwipeCardData) :
  has_type ty (card_value c) = Ok (String.eqb (type_name (type c)) ty).
Proof. reflexivity. Qed.

Lemma find_loop_cards (itemId : string) (l : list SwipeCardData) :
  find_loop (has_id itemId) (map card_value l) =
  Ok (option_map card_value (find (same_id itemId) l)).
Proof.
  induction l as [|c l IH]; cbn [map find_loop find]; [reflexivity|].
  rewrite has_id_card. destruct (same_id itemId c); [reflexivity|exact IH].
Qed.

Lemma some_loop_cards (itemId : string) (l : list SwipeCardData) :
  some_loop (has_id itemId) (map card_value l) =
  Ok (existsb (same_id itemId) l).
Proof.
  induction l as [|c l IH]; cbn [map some_loop existsb]; [reflexivity|].
  rewrite has_id_card. destruct (same_id itemId c); [reflexivity|exact IH].
Qed.

Lemma filter_loop_cards (p : value -> result bool)
    (q : SwipeCardData -> bool) (l : list SwipeCardData) :
  (forall c, p (card_value c) = Ok (q c)) ->
  filter_loop p (map card_value l) = Ok (map card_value (filter q l)).
Proof.
  intro Hp. induction l as [|c l IH]; cbn [map filter_loop filter];
    [reflexivity|].
  rewrite Hp, IH. destruct (q c); reflexivity.
Qed.

(** [some] agrees with [find]. *)
Lemma some_loop_find_loop (p : value -> result bool) (l : list value) :
  some_loop p l =
  match find_loop p l with
  | Throw e => Throw e
  | Ok (Some _) => Ok true
  | Ok None => Ok false
  end.
Proof.
  induction l as [|v l IH]; simpl; [reflexivity|].
  destruct (p v) as [[|]|e]; auto.
Qed.

Lemma find_loop_found (p : value -> result bool) (l : list value)
    (v : value) :
  find_loop p l = Ok (Some v) -> p v = Ok true.
Proof.
  induction l as [|u l IH]; simpl; [discriminate|].
  destruct (p u) as [[|]|e] eqn:E; try discriminate; auto.
  intros [= <-]. exact E.
Qed.

(** Only an object can carry a matching [id]; an object is truthy. *)
Lemma has_id_truthy (itemId : string) (v : value) :
  has_id itemId v = Ok true -> truthy (Some v) = true.
Proof. destruct v; simpl; try discriminate; reflexivity. Qed.

Lemma has_id_no_throw (itemId : string) (v : value) :
  v <> VNull -> exists b, has_id itemId v = Ok b.
Proof.
  intro Hv. destruct v; try congruence; unfold has_id; simpl; eauto.
Qed.

Lemma find_loop_no_throw (itemId : string) (l : list value) :
  Forall (fun v => v <> VNull) l ->
  exists found, find_loop (has_id itemId) l = Ok found.
Proof.
  induction 1 as [|v l Hv _ IH]; simpl; [eauto|].
  destruct (has_id_no_throw itemId v Hv) as [[|] ->]; eauto.
Qed.

(** Once the card is at the end, [some] finds its identifier. *)
Lemma some_loop_appended (l : list value) (c : SwipeCardData) :
  Forall (fun v => v <> VNull) l ->
  some_loop (has_id (id c)) (l ++ [card_value c]) = Ok true.
Proof.
  induction 1 as [|v l Hv _ IH]; cbn [app some_loop].
  - rewrite has_id_card. unfold same_id. rewrite String.eqb_refl. reflexivity.
  - destruct (has_id_no_throw (id c) v Hv) as [[|] ->]; auto.
Qed.

(** ** Reading *)

(** [getSavedItems] never throws and never writes. *)
Lemma getSavedItems_total (st : Storage) :
  exists v, getSavedItems st = (Ok v, st).
Proof.
  unfold getSavedItems, try_catch, bind, localStorage_getItem, parse.
  destruct (getItem_throws st); [eexists; reflexivity|].
  destruct (data st KEY) as [s|]; [|eexists; reflexivity].
  destruct (truthy (Some (VStr s))); [|eexists; reflexivity].
  destruct (JSON_parse s); eexists; reflexivity.
Qed.

Lemma getSavedItems_denied (st : Storage) :
  getItem_throws st = true -> getSavedItems st = (Ok (VArr []), st).
Proof.
  intro H. unfold getSavedItems, try_catch, bind, localStorage_getItem.
  rewrite H. reflexivity.
Qed.

Lemma getSavedItems_missing (st : Storage) :
  data st KEY = None -> getSavedItems st = (Ok (VArr []), st).
Proof.
  intro H. unfold getSavedItems, try_catch, bind, localStorage_getItem.
  rewrite H. destruct (getItem_throws st); reflexivity.
Qed.

Lemma getSavedItems_unparseable (st : Storage) (s : string) :
  data st KEY = Some s -> JSON_parse s = None ->
  getSavedItems st = (Ok (VArr []), st).
Proof.
  intros H P. unfold getSavedItems, try_catch, bind, localStorage_getItem.
  rewrite H. destruct (getItem_throws st); [reflexivity|].
  unfold parse. rewrite P. destruct (truthy _); reflexivity.
Qed.

Lemma getSavedItems_read_fails (st : Storage) :
  read_fails st -> getSavedItems st = (Ok (VArr []), st).
Proof.
  intros [H|(s & H & P)].
  - apply getSavedItems_denied, H.
  - apply (getSavedItems_unparseable st s); assumption.
Qed.

Lemma getSavedItems_parsed (st : Storage) (s : string) (v : value) :
  getItem_throws st = false -> data st KEY = Some s -> s <> "" ->
  JSON_parse s = Some v ->
  getSavedItems st = (Ok v, st).
Proof.
  intros R H Hs P.
  unfold getSavedItems, try_catch, bind, localStorage_getItem.
  assert (T : truthy (Some (VStr s)) = true).
  { simpl. destruct (String.eqb_spec s ""); [contradiction|reflexivity]. }
  rewrite R, H, T. unfold parse. rewrite P. reflexivity.
Qed.

(** ** Writing *)

(** What [saveItem] does, by what [getSavedItems] returned. *)
Lemma saveItem_cases (item : SwipeCardData) (st : Storage) (v : value) :
  getSavedItems st = (Ok v, st) ->
  saveItem item st =
  match Array_find v (has_id (id item)) with
  | Throw _ => (Ok false, st)
  | Ok found =>
      if truthy found then (Ok false, st)
      else
        match spread_append v (card_value item) with
        | Throw _ => (Ok false, st)
        | Ok updated =>
            if setItem_accepts st KEY (JSON_stringify updated)
            then (Ok true, write KEY (JSON_stringify updated) st)
            else (Ok false, st)
        end
  end.
Proof.
  intro G. unfold saveItem, try_catch, bind at 1. rewrite G.
  unfold bind, lift, ret, localStorage_setItem.
  destruct (Array_find v (has_id (id item))) as [found|e]; [|reflexivity].
  destruct (truthy found); simpl; [reflexivity|].
  destruct (spread_append v (card_value item)) as [updated|e]; [|reflexivity].
  destruct (setItem_accepts st KEY (JSON_stringify updated)); reflexivity.
Qed.

Lemma removeItem_cases (itemId : string) (st : Storage) (v : value) :
  getSavedItems st = (Ok v, st) ->
  removeItem itemId st =
  match Array_filter v (has_other_id itemId) with
  | Throw _ => (Ok false, st)
  | Ok updated =>
      if setItem_accepts st KEY (JSON_stringify updated)
      then (Ok true, write KEY (JSON_stringify updated) st)
      else (Ok false, st)
  end.
Proof.
  intro G. unfold removeItem, try_catch, bind at 1. rewrite G.
  unfold bind, lift, ret, localStorage_setItem.
  destruct (Array_filter v (has_other_id itemId)) as [updated|e];
    [|reflexivity].
  destruct (setItem_accepts st KEY (JSON_stringify updated)); reflexivity.
Qed.

Lemma isSaved_cases (itemId : string) (st : Storage) (v : value) :
  getSavedItems st = (Ok v, st) ->
  isSaved itemId st = (Array_some v (has_id itemId), st).
Proof.
  intro G. unfold isSaved, bind. rewrite G. reflexivity.
Qed.

Lemma getSavedByType_cases (ty : string) (st : Storage) (v : value) :
  getSavedItems st = (Ok v, st) ->
  getSavedByType ty st = (Array_filter v (has_type ty), st).
Proof.
  intro G. unfold getSavedByType, bind. rewrite G. reflexivity.
Qed.

(** [saveItem] never throws, and a [false] leaves the store as it was. *)
Lemma saveItem_total (item : SwipeCardData) (st : Storage) :
  exists b st', saveItem item st = (Ok b, st') /\ (b = false -> st' = st).
Proof.
  destruct (getSavedItems_total st) as [v G].
  rewrite (saveItem_cases item st v G).
  destruct (Array_find v (has_id (id item))) as [found|e]; [|eauto].
  destruct (truthy found); [eauto|].
  destruct (spread_append v (card_value item)) as [updated|e]; [|eauto].
  destruct (setItem_accepts st KEY (JSON_stringify updated)); [|eauto].
  do 2 eexists. split; [reflexivity|discriminate].
Qed.

End Store.

Lemma NoDup_snoc {A : Type} (l : list A) (a : A) :
  NoDup l -> ~ In a l -> NoDup (l ++ [a]).
Proof.
  induction 1 as [|b l Hb Hl IH]; intro Ha; simpl.
  - constructor; [intros []|constructor].
  - constructor.
    + rewrite in_app_iff. intros [H|[H|[]]]; [contradiction|].
      apply Ha. left. symmetry. exact H.
    + apply IH. intro H. apply Ha. right. exact H.
Qed.

Lemma find_same_id_none (itemId : string) (l : list SwipeCardData) :
  ~ In itemId (map id l) ->
  find (savedItemsManager.same_id itemId) l = None.
Proof.
  induction l as [|c l IH]; simpl; [reflexivity|]. intro H.
  unfold savedItemsManager.same_id at 1.
  destruct (String.eqb_spec (id c) itemId) as [E|_]; [tauto|].
  apply IH. tauto.
Qed.

Lemma find_same_id_some (itemId : string) (l : list SwipeCardData) :
  In itemId (map id l) ->
  exists c, find (savedItemsManager.same_id itemId) l = Some c.
Proof.
  induction l as [|c l IH]; simpl; [intros []|]. intro H.
  unfold savedItemsManager.same_id at 1.
  destruct (String.eqb_spec (id c) itemId) as [E|N]; [eauto|].
  apply IH. destruct H; [contradiction|assumption].
Qed.

Lemma existsb_same_id (itemId : string) (l : list SwipeCardData) :
  existsb (savedItemsManager.same_id itemId) l = true <->
  In itemId (map id l).
Proof.
  rewrite existsb_exists, in_map_iff. unfold savedItemsManager.same_id.
  split; intros (c & A & B).
  - apply String.eqb_eq in B. eauto.
  - exists c. split; [exact B|]. apply String.eqb_eq. exact A.
Qed.

Lemma filter_absent (itemId : string) (l : list SwipeCardData) :
  ~ In itemId (map id l) ->
  filter (fun c => negb (savedItemsManager.same_id itemId c)) l = l.
Proof.
  induction l as [|c l IH]; simpl; [reflexivity|]. intro H.
  unfold savedItemsManager.same_id at 1.
  destruct (String.eqb_spec (id c) itemId) as [E|_]; [tauto|].
  simpl. f_equal. apply IH. tauto.
Qed.

Lemma filter_removes (itemId : string) (l : list SwipeCardData) :
  ~ In itemId
      (map id (filter (fun c => negb (savedItemsManager.same_id itemId c)) l)).
Proof.
  rewrite in_map_iff. intros (c & E & H). apply filter_In in H.
  destruct H as [_ H]. unfold savedItemsManager.same_id in H.
  rewrite E, String.eqb_refl in H. discriminate.
Qed.

Section StoreLaws.
Import savedItemsManager.
Context {J : JSON} {L : JSONLaws J}.

Lemma stringify_nonempty (v : value) : JSON_stringify v <> "".
Proof.
  intro E. pose proof (parse_stringify v) as P.
  rewrite E, parse_empty in P. discriminate.
Qed.

(** What was written is what is read back. *)
Lemma read_back (st : Storage) (v : value) :
  getItem_throws st = false ->
  getSavedItems (write KEY (JSON_stringify v) st) =
  (Ok v, write KEY (JSON_stringify v) st).
Proof.
  intro R.
  apply (getSavedItems_parsed _ (JSON_stringify v)).
  - exact R.
  - reflexivity.
  - apply stringify_nonempty.
  - apply parse_stringify.
Qed.

Lemma stored_write (st : Storage) (l : list SwipeCardData) :
  getItem_throws st = false ->
  stored (write KEY (JSON_stringify (VArr (map card_value l))) st) l.
Proof.
  intro R. split; [exact R|]. apply read_back, R.
Qed.

(** C3.  On a readable store that accepts the write: starting from the
    empty set, saving a card returns [true] and leaves exactly that card
    (size 1), and saving a card with the same identifier again returns
    [false] and leaves the store as it is.  In general, from a set with
    pairwise distinct identifiers, [saveItem] returns [false] and changes
    nothing when an entry shares the identifier, and otherwise returns
    [true] and appends the card, and the identifiers stay pairwise
    distinct. *)
Theorem saveItem_adds_once :
  (forall (st : Storage) (c1 c2 : SwipeCardData),
     stored st [] ->
     id c1 = id c2 ->
     setItem_accepts st KEY (JSON_stringify (VArr [card_value c1])) = true ->
     exists st1 : Storage,
       saveItem c1 st = (Ok true, st1) /\
       stored st1 [c1] /\
       saved_count st1 = Some 1%nat /\
       saveItem c2 st1 = (Ok false, st1)) /\
  (forall (st : Storage) (l : list SwipeCardData) (item : SwipeCardData),
     stored st l ->
     NoDup (map id l) ->
     (In (id item) (map id l) -> saveItem item st = (Ok false, st)) /\
     (~ In (id item) (map id l) ->
      setItem_accepts st KEY
        (JSON_stringify (VArr (map card_value (l ++ [item])))) = true ->
      exists st' : Storage,
        saveItem item st = (Ok true, st') /\
        stored st' (l ++ [item]) /\
        NoDup (map id (l ++ [item])))).
Proof.
  assert (General : forall st l item,
    stored st l ->
    (In (id item) (map id l) -> saveItem item st = (Ok false, st)) /\
    (~ In (id item) (map id l) ->
     setItem_accepts st KEY
       (JSON_stringify (VArr (map card_value (l ++ [item])))) = true ->
     saveItem item st =
       (Ok true,
        write KEY (JSON_stringify (VArr (map card_value (l ++ [item])))) st))).
  { intros st l item [R G]. rewrite (saveItem_cases item st _ G).
    cbn [Array_find spread_append]. rewrite find_loop_cards. split.
    - intro Hin. destruct (find_same_id_some _ _ Hin) as [c ->]. reflexivity.
    - intros Hnot Hacc. rewrite (find_same_id_none _ _ Hnot).
      cbn [option_map truthy].
      replace (map card_value l ++ [card_value item])
        with (map card_value (l ++ [item]))
        by (rewrite map_app; reflexivity).
      rewrite Hacc. reflexivity. }
  split.
  - intros st c1 c2 Hst Hid Hacc.
    destruct (General st [] c1 Hst) as [_ Hnew].
    specialize (Hnew (fun H => H) Hacc). simpl app in Hnew.
    destruct Hst as [R _].
    set (st1 := write KEY (JSON_stringify (VArr (map card_value [c1]))) st)
      in *.
    assert (S1 : stored st1 [c1]) by (apply stored_write, R).
    exists st1. split; [exact Hnew|]. split; [exact S1|]. split.
    + unfold saved_count. destruct S1 as [_ ->]. reflexivity.
    + destruct (General st1 [c1] c2 S1) as [Hdup _].
      apply Hdup. simpl. left. exact Hid.
  - intros st l item Hst Hnd.
    destruct (General st l item Hst) as [Hdup Hnew]. split; [exact Hdup|].
    intros Hnot Hacc. eexists. split; [apply Hnew; assumption|].
    destruct Hst as [R _]. split; [apply stored_write, R|].
    rewrite map_app. apply NoDup_snoc; assumption.
Qed.

(** C4 (as the code has it).  On a readable store holding the cards
    [l], [removeItem] returns [true] whenever the store accepts the
    write, whether or not an entry had the identifier: the set becomes
    [l] without the entries of that identifier, which is [l] itself when
    there was none, and the identifier is no longer saved.  It returns
    [false], leaving the store as it was, when the write is refused. *)
Theorem removeItem_reports_the_write (st : Storage)
    (l : list SwipeCardData) (itemId : string) :
  stored st l ->
  let rest := filter (fun c => negb (same_id itemId c)) l in
  let blob := JSON_stringify (VArr (map card_value rest)) in
  (setItem_accepts st KEY blob = true ->
   exists st' : Storage,
     removeItem itemId st = (Ok true, st') /\
     stored st' rest /\
     isSaved itemId st' = (Ok false, st') /\
     (~ In itemId (map id l) -> rest = l)) /\
  (setItem_accepts st KEY blob = false ->
   removeItem itemId st = (Ok false, st)).
Proof.
  intros [R G] rest blob.
  assert (E : removeItem itemId st =
              if setItem_accepts st KEY blob
              then (Ok true, write KEY blob st) else (Ok false, st)).
  { rewrite (removeItem_cases itemId st _ G). cbn [Array_filter].
    rewrite (filter_loop_cards _ (fun c => negb (same_id itemId c)));
      [reflexivity|]. intro c. apply has_other_id_card. }
  split; intro Hacc; rewrite E, Hacc; [|reflexivity].
  exists (write KEY blob st).
  assert (S' : stored (write KEY blob st) rest) by (apply stored_write, R).
  repeat split; try apply S'.
  - destruct S' as [_ G']. rewrite (isSaved_cases itemId _ _ G').
    cbn [Array_some]. rewrite some_loop_cards. f_equal. f_equal.
    destruct (existsb (same_id itemId) rest) eqn:X; [|reflexivity].
    apply existsb_same_id in X. exfalso. exact (filter_removes itemId l X).
  - apply filter_absent.
Qed.

(** C6 (as the code has it).  Take a store that can be read, whose
    text is missing, empty, not JSON, or an array without a [null] entry,
    and that accepts the write of that array with the card appended.
    After [saveItem], whatever it returned, [isSaved] of the card's
    identifier, which reads and parses the store again, returns [true]. *)
Theorem saved_card_is_found_after_reload (st : Storage)
    (saved : list value) (item : SwipeCardData) :
  getItem_throws st = false ->
  getSavedItems st = (Ok (VArr saved), st) ->
  Forall (fun v => v <> VNull) saved ->
  setItem_accepts st KEY
    (JSON_stringify (VArr (saved ++ [card_value item]))) = true ->
  exists (b : bool) (st' : Storage),
    saveItem item st = (Ok b, st') /\
    isSaved (id item) st' = (Ok true, st').
Proof.
  intros R G Hnn Hacc. rewrite (saveItem_cases item st _ G).
  cbn [Array_find spread_append].
  destruct (find_loop_no_throw (id item) saved Hnn) as [found F].
  rewrite F. destruct found as [v|].
  - pose proof (find_loop_found _ _ _ F) as Hv.
    rewrite (has_id_truthy _ _ Hv).
    exists false, st. split; [reflexivity|].
    rewrite (isSaved_cases _ _ _ G). cbn [Array_some].
    rewrite some_loop_find_loop, F. reflexivity.
  - cbn [truthy]. rewrite Hacc. do 2 eexists. split; [reflexivity|].
    rewrite (isSaved_cases _ _ _ (read_back st _ R)). cbn [Array_some].
    rewrite (some_loop_appended saved item Hnn). reflexivity.
Qed.

End StoreLaws.

Section StoreFailures.
Import savedItemsManager.
Context {J : JSON}.

(** C7.  When the store cannot be read, holds nothing under the key, or
    holds text that does not parse, [getSavedItems] returns the empty
    array without throwing, and so [isSaved] answers [false] and
    [getSavedByType] answers the empty array, for every identifier and
    type; none of them throws or writes. *)
Theorem unreadable_store_reads_as_empty (st : Storage) :
  getItem_throws st = true \/
  data st KEY = None \/
  (exists s : string, data st KEY = Some s /\ JSON_parse s = None) ->
  getSavedItems st = (Ok (VArr []), st) /\
  (forall itemId : string, isSaved itemId st = (Ok false, st)) /\
  (forall ty : string, getSavedByType ty st = (Ok (VArr []), st)).
Proof.
  intro H.
  assert (G : getSavedItems st = (Ok (VArr []), st)).
  { destruct H as [H|[H|(s & H & P)]].
    - apply getSavedItems_denied, H.
    - apply getSavedItems_missing, H.
    - apply (getSavedItems_unparseable st s); assumption. }
  split; [exact G|]. split.
  - intro itemId. rewrite (isSaved_cases _ _ _ G). reflexivity.
  - intro ty. rewrite (getSavedByType_cases _ _ _ G). reflexivity.
Qed.

(** C10 (as the code has it).  [saveItem] never throws, and when it
    returns [false] the store is as it was, so a [false] does not tell a
    failed save from a card that was already there.  It returns [false]
    whenever the store refuses the write.  A read that throws does not
    make it fail: [getSavedItems] turns that into the empty array, so
    [saveItem] writes the array of this one card and returns [true] if
    the store accepts it, [false] if not. *)
Theorem saveItem_failure_is_silent (item : SwipeCardData) (st : Storage) :
  (exists (b : bool) (st' : Storage),
     saveItem item st = (Ok b, st') /\ (b = false -> st' = st)) /\
  ((forall s : string, setItem_accepts st KEY s = false) ->
   saveItem item st = (Ok false, st)) /\
  (read_fails st ->
   let blob := JSON_stringify (VArr [card_value item]) in
   saveItem item st =
     if setItem_accepts st KEY blob
     then (Ok true, write KEY blob st)
     else (Ok false, st)).
Proof.
  split; [apply saveItem_total|]. split.
  - intro Hno. destruct (getSavedItems_total st) as [v G].
    rewrite (saveItem_cases item st v G).
    destruct (Array_find v (has_id (id item))) as [found|e]; [|reflexivity].
    destruct (truthy found); [reflexivity|].
    destruct (spread_append v (card_value item)) as [updated|e];
      [|reflexivity].
    rewrite Hno. reflexivity.
  - intros Hread blob.
    rewrite (saveItem_cases item st _ (getSavedItems_read_fails st Hread)).
    reflexivity.
Qed.

End StoreFailures.

(* ================================================================== *)
(** * The reference codec meets the laws *)
(* ================================================================== *)

(** Induction on values through their elements and properties. *)
Lemma value_induction (P : value -> Prop) :
  P VNull ->
  (forall b, P (VBool b)) ->
  (forall d, P (VNum d)) ->
  (forall s, P (VStr s)) ->
  (forall l, Forall P l -> P (VArr l)) ->
  (forall ps, Forall (fun kv => P (snd kv)) ps -> P (VObj ps)) ->
  forall v, P v.
Proof.
  intros Hnull Hbool Hnum Hstr Harr Hobj.
  fix rec 1. intros [|b|d|s|l|ps].
  - exact Hnull.
  - apply Hbool.
  - apply Hnum.
  - apply Hstr.
  - apply Harr. induction l as [|u l IH]; constructor; [apply rec|exact IH].
  - apply Hobj.
    induction ps as [|[k u] ps IH]; constructor; [apply rec|exact IH].
Qed.

Section RefJSONFacts.
Import RefJSON.
Local Open Scope string_scope.

Lemma append_assoc (a b c : string) : (a ++ b) ++ c = a ++ (b ++ c).
Proof. induction a as [|x a IH]; simpl; [reflexivity|]. now rewrite IH. Qed.

Lemma append_nil_r (a : string) : a ++ "" = a.
Proof. induction a as [|x a IH]; simpl; [reflexivity|]. now rewrite IH. Qed.

Lemma length_append (a b : string) :
  String.length (a ++ b) = (String.length a + String.length b)%nat.
Proof. induction a as [|x a IH]; simpl; [reflexivity|]. now rewrite IH. Qed.

(** ** Strings *)

Lemma read_char_escape (c : ascii) (rest : string) :
  read_char (escape_char c ++ rest) = Some (Some c, rest).
Proof. destruct c as [[] [] [] [] [] [] [] []]; reflexivity. Qed.

Lemma escape_char_length (c : ascii) :
  (1 <= String.length (escape_char c))%nat.
Proof.
  unfold escape_char.
  destruct (Ascii.eqb c dquote); [simpl; lia|].
  destruct (Ascii.eqb c "\"); [simpl; lia|].
  destruct (is_control c); simpl; lia.
Qed.

Lemma escape_length (s : string) :
  (String.length s <= String.length (escape s))%nat.
Proof.
  induction s as [|c s IH]; simpl; [lia|].
  rewrite length_append. pose proof (escape_char_length c). lia.
Qed.

Lemma read_string_escape (s rest : string) (fuel : nat) :
  (String.length s < fuel)%nat ->
  read_string fuel (escape s ++ String dquote rest) = Some (s, rest).
Proof.
  revert fuel. induction s as [|c s IH]; intros [|fuel] H;
    try (simpl in H; lia).
  - reflexivity.
  - cbn [escape]. rewrite append_assoc. cbn [read_string].
    rewrite read_char_escape, IH; [reflexivity|]. simpl in H. lia.
Qed.

(** Reading a quoted string whose opening quote is already consumed. *)
Lemma read_quoted (s rest : string) :
  let body := escape s ++ String dquote rest in
  read_string (S (String.length body)) body = Some (s, rest).
Proof.
  intro body. apply read_string_escape. unfold body.
  rewrite length_append. pose proof (escape_length s). lia.
Qed.

Lemma quote_append (s rest : string) :
  quote s ++ rest = String dquote (escape s ++ String dquote rest).
Proof. unfold quote. simpl. rewrite append_assoc. reflexivity. Qed.

Lemma read_key_quote (k rest : string) :
  read_key (quote k ++ String ":" rest) = Some (k, rest).
Proof.
  rewrite quote_append. unfold read_key.
  change (Ascii.eqb dquote dquote) with true. cbv iota.
  rewrite read_quoted. reflexivity.
Qed.

(** ** Integers *)

Lemma span_int_append (a rest : string) :
  all_int a = true -> no_int_head rest = true ->
  span_int (a ++ rest) = (a, rest).
Proof.
  intros Ha Hr. induction a as [|c a IH]; simpl.
  - destruct rest as [|c rest]; [reflexivity|]. simpl in *.
    apply negb_true_iff in Hr. rewrite Hr. reflexivity.
  - simpl in Ha. apply andb_true_iff in Ha. destruct Ha as [Hc Ha].
    rewrite Hc, (IH Ha). reflexivity.
Qed.

Lemma all_int_uint (d : Decimal.uint) :
  all_int (NilEmpty.string_of_uint d) = true.
Proof. induction d; simpl; auto. Qed.

Lemma all_int_uint_zero (d : Decimal.uint) :
  all_int (NilZero.string_of_uint d) = true.
Proof. destruct d; simpl; auto using all_int_uint. Qed.

Lemma all_int_print_int (z : Z) : all_int (print_int z) = true.
Proof.
  unfold print_int. destruct z as [|p|p]; simpl; [reflexivity| |];
    apply all_int_uint_zero.
Qed.

Lemma int_head_print_int (z : Z) : int_head (print_int z) = true.
Proof.
  unfold print_int. destruct z as [|p|p]; simpl; try reflexivity.
  destruct (Pos.to_uint p); reflexivity.
Qed.

Lemma read_int_print (z : Z) (rest : string) :
  no_int_head rest = true ->
  read_int (print_int z ++ rest) = Some (z, rest).
Proof.
  intro Hr. unfold read_int.
  rewrite (span_int_append _ _ (all_int_print_int z) Hr).
  unfold print_int. rewrite NilZero.isi.
  - rewrite DecimalZ.of_to. reflexivity.
  - destruct z; simpl; try discriminate.
    intros [= E]. exact (DecimalPos.Unsigned.to_uint_nonnil _ E).
  - destruct z; simpl; try discriminate.
    intros [= E]. exact (DecimalPos.Unsigned.to_uint_nonnil _ E).
Qed.

Lemma read_number_print (d : decimal) (rest : string) :
  no_int_head rest = true ->
  read_number (print (VNum d) ++ rest) = Some (VNum d, rest).
Proof.
  intro Hr. cbn [print]. rewrite !append_assoc. unfold read_number.
  rewrite read_int_print by reflexivity.
  cbn [append]. rewrite read_int_print by exact Hr.
  destruct d. reflexivity.
Qed.

(** A text that starts like an integer is read as a number. *)
Lemma read_value_int_head (fuel : nat) (s : string) :
  int_head s = true -> read_value (S fuel) s = read_number s.
Proof.
  destruct s as [|c s]; [discriminate|].
  destruct c as [[] [] [] [] [] [] [] []]; try discriminate; reflexivity.
Qed.

(** ** Values *)

Lemma int_head_append (a b : string) :
  int_head a = true -> int_head (a ++ b) = true.
Proof. destruct a; [discriminate|]. simpl. auto. Qed.

Lemma int_head_not_close (c : ascii) (s : string) :
  Ascii.eqb c "-" = false -> is_int_char c = false ->
  int_head s = true -> head_is_not c s = true.
Proof.
  intros H1 H2. destruct s as [|d s]; [discriminate|]. simpl. intro Hd.
  destruct (Ascii.eqb_spec d c) as [->|_]; [congruence|reflexivity].
Qed.

Lemma print_head (v : value) (rest : string) :
  head_is_not "]" (print v ++ rest) = true.
Proof.
  destruct v as [|[|]|d|s|[|v l]|[|[k v] l]]; try reflexivity.
  apply int_head_not_close; try reflexivity.
  cbn [print]. apply int_head_append, int_head_append, int_head_print_int.
Qed.

Lemma print_length (v : value) : (1 <= String.length (print v))%nat.
Proof.
  destruct v as [|[|]|d|s|[|v l]|[|[k v] l]]; simpl; try lia.
  rewrite !length_append. simpl. lia.
Qed.

Lemma elements_tail_head (l : list value) (rest : string) :
  no_int_head (elements_tail l ++ rest) = true.
Proof. destruct l; reflexivity. Qed.

Lemma props_tail_head (l : list (string * value)) (rest : string) :
  no_int_head (props_tail l ++ rest) = true.
Proof. destruct l as [|[k v] l]; reflexivity. Qed.

Lemma read_value_quote (fuel : nat) (body : string) :
  read_value (S fuel) (String dquote body) =
  match read_string (S (String.length body)) body with
  | Some (t, rest) => Some (VStr t, rest)
  | None => None
  end.
Proof. reflexivity. Qed.

Lemma read_value_array (fuel : nat) (s : string) :
  head_is_not "]" s = true ->
  read_value (S fuel) (String "[" s) =
  match read_value fuel s with
  | Some (v, rest) =>
      match read_elements fuel rest with
      | Some (l, rest') => Some (VArr (v :: l), rest')
      | None => None
      end
  | None => None
  end.
Proof.
  destruct s as [|c s]; [discriminate|].
  destruct c as [[] [] [] [] [] [] [] []]; try discriminate; reflexivity.
Qed.

Lemma read_value_object (fuel : nat) (s : string) :
  read_value (S fuel) (String "{" (String dquote s)) =
  match read_key (String dquote s) with
  | Some (k, rest) =>
      match read_value fuel rest with
      | Some (v, rest') =>
          match read_props fuel rest' with
          | Some (l, rest3) => Some (VObj ((k, v) :: l), rest3)
          | None => None
          end
      | None => None
      end
  | None => None
  end.
Proof. reflexivity. Qed.

Lemma read_elements_more (fuel : nat) (s : string) :
  read_elements (S fuel) (String "," s) =
  match read_value fuel s with
  | Some (v, rest) =>
      match read_elements fuel rest with
      | Some (l, rest') => Some (v :: l, rest')
      | None => None
      end
  | None => None
  end.
Proof. reflexivity. Qed.

Lemma read_props_more (fuel : nat) (s : string) :
  read_props (S fuel) (String "," s) =
  match read_key s with
  | Some (k, rest) =>
      match read_value fuel rest with
      | Some (v, rest') =>
          match read_props fuel rest' with
          | Some (l, rest3) => Some ((k, v) :: l, rest3)
          | None => None
          end
      | None => None
      end
  | None => None
  end.
Proof. reflexivity. Qed.

Lemma read_elements_print (l : list value) :
  Forall reads_back l ->
  forall (fuel : nat) (rest : string),
    (String.length (elements_tail l) <= fuel)%nat ->
    no_int_head rest = true ->
    read_elements fuel (elements_tail l ++ rest) = Some (l, rest).
Proof.
  induction 1 as [|v l Hv _ IH]; intros [|fuel] rest Hf Hr;
    try (simpl in Hf; lia).
  - reflexivity.
  - change (elements_tail (v :: l))
      with (String "," (print v ++ elements_tail l)) in *.
    cbn [append String.length] in *. rewrite length_append in Hf.
    rewrite append_assoc, read_elements_more.
    rewrite Hv; [|lia|apply elements_tail_head].
    rewrite IH; [reflexivity|lia|exact Hr].
Qed.

Lemma read_props_print (l : list (string * value)) :
  Forall (fun kv => reads_back (snd kv)) l ->
  forall (fuel : nat) (rest : string),
    (String.length (props_tail l) <= fuel)%nat ->
    no_int_head rest = true ->
    read_props fuel (props_tail l ++ rest) = Some (l, rest).
Proof.
  induction 1 as [|[k v] l Hv _ IH]; intros [|fuel] rest Hf Hr;
    try (simpl in Hf; lia).
  - reflexivity.
  - change (props_tail ((k, v) :: l))
      with (String "," (quote k ++ String ":" (print v ++ props_tail l)))
      in *.
    cbn [append String.length] in *. rewrite length_append in Hf.
    cbn [String.length] in Hf. rewrite length_append in Hf.
    rewrite read_props_more.
    rewrite append_assoc. cbn [append]. rewrite append_assoc.
    rewrite read_key_quote.
    simpl snd in Hv. rewrite Hv; [|lia|apply props_tail_head].
    rewrite IH; [reflexivity|lia|exact Hr].
Qed.

Lemma read_print (v : value) : reads_back v.
Proof.
  induction v as [|b|d|s|l IH|ps IH] using value_induction;
    intros fuel rest Hf Hr;
    (destruct fuel as [|fuel];
     [match type of Hf with
      | (String.length (print ?u) <= 0)%nat =>
          pose proof (print_length u); lia
      end|]).
  - reflexivity.
  - destruct b; reflexivity.
  - rewrite read_value_int_head; [apply read_number_print, Hr|].
    cbn [print].
    apply int_head_append, int_head_append, int_head_print_int.
  - cbn [print]. rewrite quote_append, read_value_quote, read_quoted.
    reflexivity.
  - destruct l as [|v l]; [reflexivity|].
    change (print (VArr (v :: l)))
      with (String "[" (print v ++ elements_tail l)) in *.
    cbn [append String.length] in *. rewrite length_append in Hf.
    inversion IH as [|? ? Hv Hl]; subst.
    rewrite append_assoc, read_value_array by apply print_head.
    rewrite Hv; [|lia|apply elements_tail_head].
    rewrite read_elements_print; [reflexivity|exact Hl|lia|exact Hr].
  - destruct ps as [|[k v] ps]; [reflexivity|].
    change (print (VObj ((k, v) :: ps)))
      with (String "{" (quote k ++ String ":" (print v ++ props_tail ps)))
      in *.
    cbn [append String.length] in *. rewrite length_append in Hf.
    cbn [String.length] in Hf. rewrite length_append in Hf.
    inversion IH as [|? ? Hv Hl]; subst. simpl snd in Hv.
    rewrite append_assoc. cbn [append]. rewrite append_assoc.
    rewrite quote_append, read_value_object, <- quote_append.
    rewrite read_key_quote.
    rewrite Hv; [|lia|apply props_tail_head].
    rewrite read_props_print; [reflexivity|exact Hl|lia|exact Hr].
Qed.

(** The reference codec meets the laws of [JSON]. *)
Lemma RefJSON_laws : JSONLaws RefJSON.codec.
Proof.
  split; [|reflexivity].
  intro v. simpl. unfold parse.
  rewrite <- (append_nil_r (print v)) at 2.
  rewrite read_print; [reflexivity|lia|reflexivity].
Qed.

End RefJSONFacts.

(* ================================================================== *)
(** * The theorems on concrete inputs *)
(* ================================================================== *)

Section Concrete.
Import Sample.
Import savedItemsManager.

(** A drag released at the thresholds themselves is cancelled. *)
Lemma small_drag_cancels_witness :
  let s' :=
    SwipeCard.handleDragEnd lotus_suite (SwipeCard.sample 100 (-500))
      dragging in
  SwipeCard.decision dragging s' = Some SwipeCard.Cancel /\
  SwipeCard.calls s' = SwipeCard.calls dragging /\
  SwipeCard.x s' = of_Z 0 /\
  SwipeCard.y s' = of_Z 0.
Proof.
  apply (small_drag_cancels lotus_suite dragging 100 (-500));
    unfold Qle; simpl; lia.
Defined.

(** The examples of the specification: a fast flick decides against a
    short or opposite offset. *)
Lemma strong_drag_commits_witness :
  (let s' := SwipeCard.handleDragEnd lotus_suite (SwipeCard.sample 10 600)
               dragging in
   SwipeCard.decision dragging s' = Some SwipeCard.CommitRight) /\
  (let s' := SwipeCard.handleDragEnd lotus_suite
               (SwipeCard.sample (-10) (-600)) dragging in
   SwipeCard.decision dragging s' = Some SwipeCard.CommitLeft) /\
  (let s' := SwipeCard.handleDragEnd lotus_suite (SwipeCard.sample 0 600)
               dragging in
   SwipeCard.decision dragging s' = Some SwipeCard.CommitRight) /\
  (let s' := SwipeCard.handleDragEnd lotus_suite
               (SwipeCard.sample (-150) 20) dragging in
   SwipeCard.decision dragging s' = Some SwipeCard.CommitRight).
Proof.
  split; [|split; [|split]].
  - apply (strong_drag_commits lotus_suite dragging 10 600);
      [left|right]; unfold Qlt; simpl; lia.
  - apply (strong_drag_commits lotus_suite dragging (-10) (-600));
      [left; unfold Qlt; simpl; lia|].
    intros [H|H]; revert H; unfold Qlt; simpl; lia.
  - apply (strong_drag_commits lotus_suite dragging 0 600);
      [left|right]; unfold Qlt; simpl; lia.
  - apply (strong_drag_commits lotus_suite dragging (-150) 20);
      right; vm_compute; reflexivity.
Defined.

(** In a gallery of two cards standing on the second, one advance wraps
    with its notice and two advances come back to the second card. *)
Lemma advance_wraps_once_per_pass_witness :
  let w := SwipeGallery.with_index 1
             (SwipeGallery.mount [lotus_suite; rooftop] empty_storage) in
  SwipeGallery.currentIndex (SwipeGallery.advance w) = 0 /\
  SwipeGallery.toasts (SwipeGallery.advance w) = [SwipeGallery.SEEN_ALL] /\
  SwipeGallery.currentIndex
    (SwipeGallery.advance (SwipeGallery.advance w)) = 1.
Proof.
  intro w.
  destruct (proj2 advance_wraps_once_per_pass w) as (A & B & C & _).
  - reflexivity.
  - unfold SwipeGallery.in_range, SwipeGallery.items_length, w. simpl. lia.
  - split; [exact A|]. split; [exact B|exact C].
Defined.

Lemma cursor_stays_in_range_witness :
  let w := SwipeGallery.with_index 2
             (SwipeGallery.mount [lotus_suite; rooftop; lotus_suite_again]
                empty_storage) in
  SwipeGallery.in_range (SwipeGallery.handleReset w) /\
  SwipeGallery.in_range (SwipeGallery.advance w) /\
  SwipeGallery.currentIndex (SwipeGallery.advance w) = 0 /\
  SwipeGallery.progress w = Fin ((3 # 1) / (3 # 1) * (100 # 1)).
Proof.
  intro w.
  assert (Htotal : 1 <= SwipeGallery.items_length w)
    by (unfold SwipeGallery.items_length, w; simpl; lia).
  assert (Hr : SwipeGallery.in_range w)
    by (unfold SwipeGallery.in_range, SwipeGallery.items_length, w;
        simpl; lia).
  destruct (cursor_stays_in_range w Htotal) as ((_ & R) & H).
  destruct (H Hr) as (A & B & C & _).
  split; [exact R|]. split; [exact A|].
  split; [apply B; reflexivity|exact C].
Defined.

(** A swipe, 100 ms, an unmount, and 200 ms more. *)
Lemma swipe_timer_outlives_unmount_witness :
  let w := SwipeGallery.mount [lotus_suite; rooftop] empty_storage in
  let gone :=
    SwipeGallery.unmount
      (SwipeGallery.elapse 100
         (@SwipeGallery.handleSwipeRight RefJSON.codec lotus_suite w)) in
  SwipeGallery.mounted gone = false /\
  exists fired : list SwipeGallery.Updater,
    SwipeGallery.dispatched (SwipeGallery.elapse 200 gone) =
      SwipeGallery.dispatched gone ++ fired /\
    In (SwipeGallery.next_card 2) fired.
Proof.
  intros w gone.
  destruct (@swipe_timer_outlives_unmount RefJSON.codec lotus_suite w 100 200)
    as (_ & A & _ & B); [lia|lia|].
  split; [exact A|exact B].
Defined.

Lemma saveItem_adds_once_witness :
  exists st1 : Storage,
    @saveItem RefJSON.codec lotus_suite empty_storage = (Ok true, st1) /\
    @stored RefJSON.codec st1 [lotus_suite] /\
    @saved_count RefJSON.codec st1 = Some 1%nat /\
    @saveItem RefJSON.codec lotus_suite_again st1 = (Ok false, st1).
Proof.
  destruct (proj1 (@saveItem_adds_once RefJSON.codec RefJSON_laws)
              empty_storage lotus_suite lotus_suite_again)
    as (st1 & A & B & C & D).
  - split; reflexivity.
  - reflexivity.
  - reflexivity.
  - exists st1. split; [exact A|]. split; [exact B|]. split; assumption.
Defined.

(** Removing one of two saved cards. *)
Lemma removeItem_reports_the_write_witness :
  let st :=
    holding (RefJSON.print (VArr (map card_value [lotus_suite; rooftop]))) in
  exists st' : Storage,
    @removeItem RefJSON.codec "room-101" st = (Ok true, st') /\
    @stored RefJSON.codec st' [rooftop] /\
    @isSaved RefJSON.codec "room-101" st' = (Ok false, st').
Proof.
  intro st.
  destruct (@removeItem_reports_the_write RefJSON.codec RefJSON_laws st
              [lotus_suite; rooftop] "room-101") as [H _].
  - split; reflexivity.
  - destruct H as (st' & A & B & C & _); [reflexivity|].
    exists st'. split; [exact A|]. split; [exact B|exact C].
Defined.

(** Saving into a store whose text does not parse, then looking the
    card up. *)
Lemma saved_card_is_found_after_reload_witness :
  exists (b : bool) (st' : Storage),
    @saveItem RefJSON.codec rooftop corrupt_storage = (Ok b, st') /\
    @isSaved RefJSON.codec (id rooftop) st' = (Ok true, st').
Proof.
  apply (@saved_card_is_found_after_reload RefJSON.codec RefJSON_laws
           corrupt_storage [] rooftop).
  - reflexivity.
  - reflexivity.
  - constructor.
  - reflexivity.
Defined.

Lemma unreadable_store_reads_as_empty_witness :
  @getSavedItems RefJSON.codec corrupt_storage =
    (Ok (VArr []), corrupt_storage) /\
  @isSaved RefJSON.codec "room-101" corrupt_storage =
    (Ok false, corrupt_storage) /\
  @getSavedByType RefJSON.codec "room" corrupt_storage =
    (Ok (VArr []), corrupt_storage).
Proof.
  destruct (@unreadable_store_reads_as_empty RefJSON.codec corrupt_storage)
    as (A & B & C).
  - right. right. exists "{oops". split; reflexivity.
  - split; [exact A|]. split; [apply B|apply C].
Defined.

(** A store that refuses every write. *)
Lemma saveItem_failure_is_silent_witness :
  let full :=
    {| data := fun _ => None; getItem_throws := false;
       setItem_accepts := fun _ _ => false |} in
  @saveItem RefJSON.codec rooftop full = (Ok false, full).
Proof.
  intro full.
  apply (proj1 (proj2 (@saveItem_failure_is_silent RefJSON.codec rooftop
                         full))).
  reflexivity.
Defined.

(** ** Where the specification and the code part ways *)

(** C4: nothing is saved, and still [removeItem] returns [true], after
    writing an empty array where there was no text. *)
Lemma removeItem_absent_returns_true :
  @isSaved RefJSON.codec "ghost" empty_storage = (Ok false, empty_storage) /\
  @removeItem RefJSON.codec "ghost" empty_storage =
    (Ok true, holding "[]") /\
  data empty_storage KEY = None /\
  data (holding "[]") KEY = Some "[]".
Proof. repeat split. Qed.

(** C6: the store takes every write, but its text is [null].  The save
    returns [false] through its [catch], and the lookup throws. *)
Lemma lookup_after_save_throws :
  (forall k v, setItem_accepts null_storage k v = true) /\
  @saveItem RefJSON.codec lotus_suite null_storage =
    (Ok false, null_storage) /\
  @isSaved RefJSON.codec (id lotus_suite) null_storage =
    (Throw TypeError, null_storage).
Proof. repeat split. Qed.

(** C9: a swipe, an unmount straight away, and the delay: the callback
    runs on the unmounted gallery. *)
Lemma timer_fires_after_unmount :
  let w := SwipeGallery.mount [lotus_suite] empty_storage in
  let gone := SwipeGallery.unmount (SwipeGallery.handleSwipeLeft lotus_suite w) in
  SwipeGallery.mounted gone = false /\
  SwipeGallery.timers gone =
    [{| SwipeGallery.due := 300;
        SwipeGallery.updater := SwipeGallery.next_card 1 |}] /\
  SwipeGallery.dispatched gone = [] /\
  SwipeGallery.dispatched (SwipeGallery.elapse 300 gone) =
    [SwipeGallery.next_card 1].
Proof. repeat split. Qed.

(** C10: the read throws, in [JSON.parse] or in [getItem], and the
    save goes through: it returns [true] and replaces the text. *)
Lemma saveItem_succeeds_after_failed_read :
  JSON_parse (JSON := RefJSON.codec) "{oops" = None /\
  @saveItem RefJSON.codec rooftop corrupt_storage =
    (Ok true,
     write KEY (RefJSON.print (VArr [card_value rooftop])) corrupt_storage) /\
  data corrupt_storage KEY = Some "{oops" /\
  getItem_throws denied_storage = true /\
  @saveItem RefJSON.codec rooftop denied_storage =
    (Ok true,
     write KEY (RefJSON.print (VArr [card_value rooftop])) denied_storage).
Proof. repeat split. Qed.

End Concrete.

(* ================================================================== *)
(** * More on the saved-items store *)
(* ================================================================== *)

Section StoreReads.
Import savedItemsManager.
Context {J : JSON}.

(** X1.  On a readable store holding the cards [l], [getSavedByType]
    returns exactly the cards of [l] whose type is the one asked for, in
    the order they were saved; it does not throw or write. *)
Theorem getSavedByType_filters (st : Storage) (l : list SwipeCardData)
    (ty : string) :
  stored st l ->
  getSavedByType ty st =
  (Ok (VArr (map card_value (filter (has_type_name ty) l))), st).
Proof.
  intros [_ G]. rewrite (getSavedByType_cases ty st _ G).
  cbn [Array_filter].
  rewrite (filter_loop_cards _ (has_type_name ty)); [reflexivity|].
  intro c. apply has_type_card.
Qed.

(** X2.  On a readable store holding the cards [l], [isSaved] returns
    [true] exactly for the identifiers of the cards in [l], without
    throwing or writing. *)
Theorem isSaved_iff_member (st : Storage) (l : list SwipeCardData)
    (itemId : string) :
  stored st l ->
  exists b : bool,
    isSaved itemId st = (Ok b, st) /\
    (b = true <-> In itemId (map id l)).
Proof.
  intros [_ G]. exists (existsb (same_id itemId) l). split.
  - rewrite (isSaved_cases itemId st _ G). cbn [Array_some].
    rewrite some_loop_cards. reflexivity.
  - apply existsb_same_id.
Qed.

(** A callback that throws on [null] makes [filter] throw when the array
    has a [null] entry. *)
Lemma filter_loop_null (p : value -> result bool) (l : list value) :
  (forall v e, p v = Throw e -> e = TypeError) ->
  p VNull = Throw TypeError ->
  In VNull l -> filter_loop p l = Throw TypeError.
Proof.
  intros Hp Hnull. induction l as [|v l IH]; [intros []|].
  intros [->|Hin]; cbn [filter_loop].
  - rewrite Hnull. reflexivity.
  - destruct (p v) as [keep|e] eqn:E.
    + rewrite (IH Hin). reflexivity.
    + rewrite (Hp v e E). reflexivity.
Qed.

Lemma get_throws_TypeError (v : value) (key : string) (e : exn) :
  get v key = Throw e -> e = TypeError.
Proof. destruct v; simpl; congruence. Qed.

Lemma has_id_throws (itemId : string) (v : value) (e : exn) :
  has_id itemId v = Throw e -> e = TypeError.
Proof.
  unfold has_id. destruct (get v "id") eqn:E; [discriminate|].
  intros [= <-]. exact (get_throws_TypeError _ _ _ E).
Qed.

Lemma has_other_id_throws (itemId : string) (v : value) (e : exn) :
  has_other_id itemId v = Throw e -> e = TypeError.
Proof.
  unfold has_other_id. destruct (get v "id") eqn:E; [discriminate|].
  intros [= <-]. exact (get_throws_TypeError _ _ _ E).
Qed.

Lemma has_type_throws (ty : string) (v : value) (e : exn) :
  has_type ty v = Throw e -> e = TypeError.
Proof.
  unfold has_type. destruct (get v "type") eqn:E; [discriminate|].
  intros [= <-]. exact (get_throws_TypeError _ _ _ E).
Qed.

(** With a [null] entry in the array, [find] either stops at a match
    before it or throws. *)
Lemma find_loop_null (itemId : string) (l : list value) :
  In VNull l ->
  (exists e, find_loop (has_id itemId) l = Throw e) \/
  (exists v, find_loop (has_id itemId) l = Ok (Some v) /\
             has_id itemId v = Ok true).
Proof.
  induction l as [|v l IH]; [intros []|].
  intros [->|Hin]; cbn [find_loop].
  - left. eexists. reflexivity.
  - destruct (has_id itemId v) as [[|]|e] eqn:E.
    + right. eauto.
    + exact (IH Hin).
    + left. eauto.
Qed.

(** X5.  A [null] entry in the stored array freezes the store: every
    [saveItem] and every [removeItem] returns [false] and leaves the
    text as it is, and every [getSavedByType] throws a [TypeError]. *)
Theorem null_entry_freezes_store (st : Storage) (saved : list value) :
  getSavedItems st = (Ok (VArr saved), st) ->
  In VNull saved ->
  (forall item : SwipeCardData, saveItem item st = (Ok false, st)) /\
  (forall itemId : string, removeItem itemId st = (Ok false, st)) /\
  (forall ty : string, getSavedByType ty st = (Throw TypeError, st)).
Proof.
  intros G Hin. split; [|split].
  - intro item. rewrite (saveItem_cases item st _ G). cbn [Array_find].
    destruct (find_loop_null (id item) saved Hin) as [[e ->]|(v & -> & Hv)].
    + reflexivity.
    + rewrite (has_id_truthy _ _ Hv). reflexivity.
  - intro itemId. rewrite (removeItem_cases itemId st _ G).
    cbn [Array_filter]. rewrite filter_loop_null; auto.
    apply has_other_id_throws.
  - intro ty. rewrite (getSavedByType_cases ty st _ G).
    cbn [Array_filter]. rewrite filter_loop_null; auto.
    apply has_type_throws.
Qed.

(** [removeItem] never throws, and a [false] leaves the store as it
    was. *)
Lemma removeItem_total (itemId : string) (st : Storage) :
  exists b st', removeItem itemId st = (Ok b, st') /\ (b = false -> st' = st).
Proof.
  destruct (getSavedItems_total st) as [v G].
  rewrite (removeItem_cases itemId st v G).
  destruct (Array_filter v (has_other_id itemId)) as [updated|e];
    [|do 2 eexists; split; [reflexivity|reflexivity]].
  destruct (setItem_accepts st KEY (JSON_stringify updated));
    do 2 eexists; (split; [reflexivity|]); [discriminate|reflexivity].
Qed.

(** X4.  [removeItem] never throws, and when it returns [false] the
    store is as it was.  When the read fails (the store is denied or its
    text is not JSON) it does not fail: it writes the empty array over
    whatever was there and returns [true], if the store accepts that
    write.  When the text parses to something that is not an array it
    returns [false]. *)
Theorem removeItem_on_unreadable_store (itemId : string) (st : Storage) :
  (exists (b : bool) (st' : Storage),
     removeItem itemId st = (Ok b, st') /\ (b = false -> st' = st)) /\
  (read_fails st ->
   let blob := JSON_stringify (VArr []) in
   removeItem itemId st =
     if setItem_accepts st KEY blob
     then (Ok true, write KEY blob st)
     else (Ok false, st)) /\
  (forall v : value,
     getSavedItems st = (Ok v, st) ->
     (forall l, v <> VArr l) ->
     removeItem itemId st = (Ok false, st)).
Proof.
  split; [apply removeItem_total|]. split.
  - intros Hread blob.
    rewrite (removeItem_cases itemId st _ (getSavedItems_read_fails st Hread)).
    reflexivity.
  - intros v G Hv. rewrite (removeItem_cases itemId st _ G).
    destruct v; try reflexivity. exfalso. exact (Hv _ eq_refl).
Qed.

End StoreReads.

Section StoreWrites.
Import savedItemsManager.
Context {J : JSON} {L : JSONLaws J}.

(** [saveItem] and [removeItem] on a store holding cards. *)
Lemma saveItem_on_cards (st : Storage) (l : list SwipeCardData)
    (item : SwipeCardData) :
  stored st l ->
  let blob := JSON_stringify (VArr (map card_value (l ++ [item]))) in
  saveItem item st =
  match find (same_id (id item)) l with
  | Some _ => (Ok false, st)
  | None =>
      if setItem_accepts st KEY blob
      then (Ok true, write KEY blob st) else (Ok false, st)
  end.
Proof.
  intros [_ G] blob. rewrite (saveItem_cases item st _ G).
  cbn [Array_find spread_append]. rewrite find_loop_cards.
  destruct (find (same_id (id item)) l); [reflexivity|].
  cbn [option_map truthy negb]. unfold blob. rewrite map_app. reflexivity.
Qed.

Lemma removeItem_on_cards (st : Storage) (l : list SwipeCardData)
    (itemId : string) :
  stored st l ->
  let blob :=
    JSON_stringify
      (VArr (map card_value (filter (fun c => negb (same_id itemId c)) l))) in
  removeItem itemId st =
  if setItem_accepts st KEY blob
  then (Ok true, write KEY blob st) else (Ok false, st).
Proof.
  intros [_ G] blob. rewrite (removeItem_cases itemId st _ G).
  cbn [Array_filter].
  rewrite (filter_loop_cards _ (fun c => negb (same_id itemId c)));
    [reflexivity|]. intro c. apply has_other_id_card.
Qed.

Lemma filter_snoc_absent (itemId : string) (l : list SwipeCardData)
    (item : SwipeCardData) :
  id item = itemId -> ~ In itemId (map id l) ->
  filter (fun c => negb (same_id itemId c)) (l ++ [item]) = l.
Proof.
  intros Hid Hnot. rewrite filter_app, (filter_absent _ _ Hnot). simpl.
  unfold same_id. rewrite Hid, String.eqb_refl. simpl. apply app_nil_r.
Qed.

(** X3.  On a readable store that accepts writes and holds the cards
    [l], saving a card whose identifier is new and then removing that
    identifier gives back the set [l], in its order. *)
Theorem removeItem_undoes_saveItem (st : Storage)
    (l : list SwipeCardData) (item : SwipeCardData) :
  stored st l ->
  ~ In (id item) (map id l) ->
  (forall s : string, setItem_accepts st KEY s = true) ->
  exists st1 st2 : Storage,
    saveItem item st = (Ok true, st1) /\
    removeItem (id item) st1 = (Ok true, st2) /\
    stored st2 l.
Proof.
  intros Hst Hnot Hacc.
  pose proof (saveItem_on_cards st l item Hst) as S. cbv zeta in S.
  rewrite (find_same_id_none _ _ Hnot), Hacc in S.
  destruct Hst as [R _].
  set (st1 := write KEY
                (JSON_stringify (VArr (map card_value (l ++ [item])))) st) in *.
  assert (S1 : stored st1 (l ++ [item])) by (apply stored_write, R).
  pose proof (removeItem_on_cards st1 (l ++ [item]) (id item) S1) as D.
  cbv zeta in D.
  rewrite (filter_snoc_absent (id item) l item eq_refl Hnot) in D.
  change (setItem_accepts st1) with (setItem_accepts st) in D.
  rewrite Hacc in D.
  exists st1. eexists. split; [exact S|]. split; [exact D|].
  apply (stored_write st1 l). exact R.
Qed.

Lemma filter_loop_no_throw (p : value -> result bool) (l : list value) :
  (forall v, v <> VNull -> exists b, p v = Ok b) ->
  Forall (fun v => v <> VNull) l ->
  exists kept, filter_loop p l = Ok kept /\
               Forall (fun v => v <> VNull) kept.
Proof.
  intro Hp. induction 1 as [|v l Hv _ (kept & IH & Hk)]; cbn [filter_loop].
  - exists []. split; [reflexivity|constructor].
  - destruct (Hp v Hv) as [b ->]. rewrite IH.
    exists (if b then v :: kept else kept). split; [reflexivity|].
    destruct b; [constructor|]; assumption.
Qed.

Lemma has_other_id_no_throw (itemId : string) (v : value) :
  v <> VNull -> exists b, has_other_id itemId v = Ok b.
Proof.
  intro Hv. destruct v; try congruence; unfold has_other_id; simpl; eauto.
Qed.

Lemma has_type_no_throw (ty : string) (v : value) :
  v <> VNull -> exists b, has_type ty v = Ok b.
Proof.
  intro Hv. destruct v; try congruence; unfold has_type; simpl; eauto.
Qed.

Lemma card_value_not_null (c : SwipeCardData) : card_value c <> VNull.
Proof. discriminate. Qed.

Lemma clean_write (st : Storage) (saved : list value) :
  getItem_throws st = false ->
  Forall (fun v => v <> VNull) saved ->
  clean (write KEY (JSON_stringify (VArr saved)) st).
Proof.
  intros R Hs. split; [exact R|]. exists saved. split; [|exact Hs].
  apply read_back, R.
Qed.

Lemma saveItem_keeps_clean (item : SwipeCardData) (st : Storage) :
  clean st -> clean (snd (saveItem item st)).
Proof.
  intros (R & saved & G & Hs). rewrite (saveItem_cases item st _ G).
  cbn [Array_find spread_append].
  assert (C : clean st) by (split; [exact R|]; eauto).
  destruct (find_loop (has_id (id item)) saved) as [found|e]; [|exact C].
  destruct (truthy found); [exact C|].
  destruct (setItem_accepts st KEY _); [|exact C].
  apply clean_write; [exact R|].
  apply Forall_app. split; [exact Hs|].
  constructor; [apply card_value_not_null|constructor].
Qed.

Lemma removeItem_keeps_clean (itemId : string) (st : Storage) :
  clean st -> clean (snd (removeItem itemId st)).
Proof.
  intros (R & saved & G & Hs). rewrite (removeItem_cases itemId st _ G).
  cbn [Array_filter].
  assert (C : clean st) by (split; [exact R|]; eauto).
  destruct (filter_loop_no_throw (has_other_id itemId) saved
              (has_other_id_no_throw itemId) Hs) as (kept & -> & Hk).
  destruct (setItem_accepts st KEY _); [|exact C].
  apply clean_write; assumption.
Qed.

(** X6.  A store that can be read and holds an array without a [null]
    entry stays so through every sequence of [saveItem] and [removeItem]
    calls, whether the writes are accepted or not; and on such a store
    [isSaved] and [getSavedByType] return without throwing or writing. *)
Theorem clean_store_stays_clean (ops : list StoreOp) (st : Storage) :
  clean st ->
  let st' := apply_ops ops st in
  clean st' /\
  (forall itemId : string, exists b : bool,
     isSaved itemId st' = (Ok b, st')) /\
  (forall ty : string, exists l : list value,
     getSavedByType ty st' = (Ok (VArr l), st')).
Proof.
  intros Hc st'.
  assert (C : clean st').
  { unfold st', apply_ops. clear st'. revert st Hc.
    induction ops as [|op ops IH]; intros st Hc; [exact Hc|].
    simpl. apply IH. destruct op as [item|itemId]; simpl.
    - apply saveItem_keeps_clean, Hc.
    - apply removeItem_keeps_clean, Hc. }
  split; [exact C|]. destruct C as (R & saved & G & Hs). split.
  - intro itemId. rewrite (isSaved_cases itemId st' _ G). cbn [Array_some].
    rewrite some_loop_find_loop.
    destruct (find_loop_no_throw itemId saved Hs) as [[v|] ->]; eauto.
  - intro ty. rewrite (getSavedByType_cases ty st' _ G). cbn [Array_filter].
    destruct (filter_loop_no_throw (has_type ty) saved
                (has_type_no_throw ty) Hs) as (kept & -> & _).
    eauto.
Qed.

End StoreWrites.

(* ================================================================== *)
(** * More on the gallery *)
(* ================================================================== *)

Section GalleryHistories.
Import SwipeGallery.
Context {J : JSON}.

Lemma step_swipe_spec (e : Event) (w : World) :
  is_swipe e = true ->
  same_frame w (step e w) /\ currentIndex (step e w) = currentIndex w /\
  timers (step e w) =
    timers w ++
    [{| due := clock w + 300; updater := next_card (items_length w) |}].
Proof.
  destruct e as [item|item| | |]; try discriminate; intros _; simpl.
  - apply handleSwipeLeft_spec.
  - apply handleSwipeRight_spec.
Qed.

(** Swipes only queue timers: one each, all due 300 after now. *)
Lemma run_swipes_spec (es : list Event) (w : World) :
  Forall (fun e => is_swipe e = true) es ->
  let w' := run es w in
  items w' = items w /\ mounted w' = mounted w /\ clock w' = clock w /\
  currentIndex w' = currentIndex w /\
  timers w' =
    timers w ++
    repeat {| due := clock w + 300; updater := next_card (items_length w) |}
      (List.length es).
Proof.
  intro H. revert w. induction H as [|e es He _ IH]; intro w.
  - simpl. rewrite app_nil_r. auto.
  - destruct (step_swipe_spec e w He) as ((A & B & C & _) & D & E).
    destruct (IH (step e w)) as (A' & B' & C' & D' & E').
    change (run (e :: es) w) with (run es (step e w)). cbv zeta.
    rewrite A', B', C', D', E', A, B, C, D, E.
    unfold items_length. rewrite A.
    repeat split. rewrite <- app_assoc. reflexivity.
Qed.

Lemma fire_none_due (now : Z) (ts : list Timer) (w : World) :
  Forall (fun t => due_by now t = false) ts -> fire now ts w = w.
Proof.
  induction 1 as [|t ts Ht _ IH]; simpl; [reflexivity|].
  unfold due_by in Ht. rewrite Ht. exact IH.
Qed.

(** Each timer that is due moves the cursor on by one card. *)
Lemma fire_due_count (now : Z) (ts : list Timer) (w : World) :
  mounted w = true ->
  in_range w ->
  Forall (fun t => updater t = next_card (items_length w)) ts ->
  currentIndex (fire now ts w) =
  (currentIndex w + Z.of_nat (List.length (filter (due_by now) ts)))
    mod items_length w.
Proof.
  intros Hm Hr H. revert w Hm Hr H.
  induction ts as [|t ts IH]; intros w Hm Hr H.
  - simpl. rewrite Z.add_0_r. symmetry. apply Z.mod_small. exact Hr.
  - inversion H as [|? ? Hu Hrest]; subst.
    cbn [fire filter]. unfold due_by at 1.
    destruct (due t <=? now); [|apply IH; assumption].
    rewrite Hu.
    change (setCurrentIndex (next_card (items_length w)) w) with (advance w).
    destruct (advance_spec w Hm) as (Ai & _ & Ait & Am).
    assert (Len : items_length (advance w) = items_length w)
      by (unfold items_length; rewrite Ait; reflexivity).
    rewrite IH; [|exact Am|apply setCurrentIndex_in_range, Hr|].
    + rewrite Len, Ai. destruct Hr as [Hlo Hhi].
      set (n := List.length (filter (due_by now) ts)).
      destruct (currentIndex w >=? items_length w - 1) eqn:E.
      * apply geb_true_iff in E.
        replace (currentIndex w + Z.of_nat (List.length (t :: filter (due_by now) ts)))
          with (0 + Z.of_nat n + 1 * items_length w)
          by (cbn [List.length]; fold n; lia).
        symmetry. apply Z_mod_plus_full.
      * f_equal. cbn [List.length]. fold n. lia.
    + rewrite Len. exact Hrest.
Qed.

Lemma filter_all_due (now : Z) (ts : list Timer) :
  (forall u, In u ts -> due_by now u = true) ->
  filter (fun t => negb (due_by now t)) ts = [] /\
  filter (due_by now) ts = ts.
Proof.
  induction ts as [|u ts IH]; intro H; [split; reflexivity|].
  simpl. rewrite (H u (or_introl eq_refl)). simpl.
  destruct IH as [A B]; [intros v Hv; apply H; right; exact Hv|].
  split; [exact A|]. rewrite B. reflexivity.
Qed.

Lemma mod_add_cancel (a b c t : Z) :
  a mod t = b mod t -> (a + c) mod t = (b + c) mod t.
Proof.
  intro H. rewrite <- (Zplus_mod_idemp_l a), <- (Zplus_mod_idemp_l b), H.
  reflexivity.
Qed.

(** A swipe or a wait keeps the timers well behaved, and the cursor owes
    one more card after a swipe and as many as before after a wait. *)
Lemma step_owed (e : Event) (w : World) :
  is_swipe_or_wait e = true ->
  pending_ok w ->
  pending_ok (step e w) /\
  items (step e w) = items w /\
  owed (step e w) mod items_length w =
    (owed w + (if is_swipe e then 1 else 0)) mod items_length w.
Proof.
  intros He (Hm & Hw & Hd).
  assert (Hw' : well_formed (step e w)) by (apply step_well_formed, Hw).
  destruct e as [item|item| |dt|]; try discriminate.
  - destruct (step_swipe_spec (swipe_left item) w eq_refl)
      as ((A & B & C & _) & D & E).
    split; [split; [rewrite B; exact Hm|split; [exact Hw'|]]|].
    + rewrite E, C. apply Forall_app. split; [exact Hd|].
      constructor; [simpl; lia|constructor].
    + split; [exact A|]. unfold owed. rewrite D, E, length_app.
      cbn [is_swipe List.length]. f_equal. lia.
  - destruct (step_swipe_spec (swipe_right item) w eq_refl)
      as ((A & B & C & _) & D & E).
    split; [split; [rewrite B; exact Hm|split; [exact Hw'|]]|].
    + rewrite E, C. apply Forall_app. split; [exact Hd|].
      constructor; [simpl; lia|constructor].
    + split; [exact A|]. unfold owed. rewrite D, E, length_app.
      cbn [is_swipe List.length]. f_equal. lia.
  - cbn [is_swipe_or_wait] in He. apply Z.leb_le in He.
    cbn [step is_swipe] in *.
    destruct (elapse_spec dt w) as (A & B & C & D & _).
    split; [split; [rewrite B; exact Hm|split; [exact Hw'|]]|].
    + rewrite D, C. apply Forall_forall. intros t Ht.
      apply filter_In in Ht. destruct Ht as [Ht _].
      rewrite Forall_forall in Hd. specialize (Hd t Ht). lia.
    + split; [exact A|]. unfold owed. rewrite D.
      destruct Hw as [Hr Hts].
      unfold elapse. rewrite fire_due_count; [|exact Hm|exact Hr|exact Hts].
      simpl currentIndex. unfold items_length at 1 2. simpl items.
      fold (items_length w). rewrite Zplus_mod_idemp_l, Z.add_0_r.
      f_equal.
      pose proof (filter_length (due_by (clock w + dt)) (timers w)). lia.
Qed.

Lemma run_owed (es : list Event) (w : World) :
  Forall (fun e => is_swipe_or_wait e = true) es ->
  pending_ok w ->
  pending_ok (run es w) /\
  items (run es w) = items w /\
  owed (run es w) mod items_length w =
    (owed w + Z.of_nat (List.length (filter is_swipe es)))
      mod items_length w.
Proof.
  intro H. revert w. induction H as [|e es He _ IH]; intros w Hw.
  - simpl. rewrite Z.add_0_r. auto.
  - destruct (step_owed e w He Hw) as (P & I & O).
    destruct (IH (step e w) P) as (P' & I' & O').
    change (run (e :: es) w) with (run es (step e w)).
    split; [exact P'|]. split; [rewrite I', I; reflexivity|].
    assert (Len : items_length (step e w) = items_length w)
      by (unfold items_length; rewrite I; reflexivity).
    rewrite Len in O'. rewrite O'.
    rewrite (mod_add_cancel _ _ _ _ O). f_equal.
    cbn [filter]. destruct (is_swipe e); cbn [List.length]; lia.
Qed.

(** X7.  Every swipe advances the cursor exactly once.  Take a mounted
    gallery with the cursor in range and no timer queued, and any
    history of swipes (left or right) and waits.  Once 300 more has
    passed, the cursor has moved on by one card for each swipe of the
    history, wrapping at the end, and the timer queue is empty.  If the
    history has no wait, the cursor does not move before 300 has
    passed. *)
Theorem every_swipe_advances_once (es : list Event) (w : World) (d : Z) :
  mounted w = true ->
  in_range w ->
  timers w = [] ->
  Forall (fun e => is_swipe_or_wait e = true) es ->
  let w1 := run es w in
  (300 <= d ->
   currentIndex (elapse d w1) =
     (currentIndex w + Z.of_nat (List.length (filter is_swipe es)))
       mod items_length w /\
   timers (elapse d w1) = []) /\
  (0 <= d < 300 ->
   Forall (fun e => is_swipe e = true) es ->
   currentIndex (elapse d w1) = currentIndex w).
Proof.
  intros Hm Hr Ht Hes w1. split.
  - intro Hd.
    assert (P0 : pending_ok w).
    { split; [exact Hm|]. unfold well_formed. rewrite Ht.
      split; [split; [exact Hr|constructor]|constructor]. }
    destruct (run_owed es w Hes P0) as ((Hm1 & (Hr1 & Hts1) & Hd1) & I & O).
    fold w1 in Hm1, Hr1, Hts1, Hd1, I, O.
    assert (Len : items_length w1 = items_length w)
      by (unfold items_length; rewrite I; reflexivity).
    assert (Hdue : forall u, In u (timers w1) ->
                     due_by (clock w1 + d) u = true).
    { intros u Hu. rewrite Forall_forall in Hd1. specialize (Hd1 u Hu).
      unfold due_by. apply Z.leb_le. lia. }
    destruct (filter_all_due _ _ Hdue) as [F1 F2].
    split.
    + unfold elapse. rewrite fire_due_count.
      * simpl currentIndex. unfold items_length at 1. simpl items.
        fold (items_length w1). rewrite F2, Len.
        unfold owed in O. rewrite O. unfold owed. rewrite Ht.
        f_equal. simpl. lia.
      * exact Hm1.
      * exact Hr1.
      * exact Hts1.
    + destruct (elapse_spec d w1) as (_ & _ & _ & T & _). rewrite T.
      exact F1.
  - intros Hd Hsw.
    destruct (run_swipes_spec es w Hsw) as (_ & _ & C & D & E).
    fold w1 in C, D, E. rewrite Ht in E. cbn [app] in E.
    unfold elapse. rewrite fire_none_due; [exact D|].
    rewrite E, C. apply Forall_forall. intros u Hu.
    apply repeat_spec in Hu. subst u. unfold due_by. simpl.
    apply Z.leb_gt. lia.
Qed.

Lemma setCurrentIndex_storage (u : Updater) (w : World) :
  storage (setCurrentIndex u w) = storage w.
Proof.
  unfold setCurrentIndex. simpl mounted. destruct (mounted w); [|reflexivity].
  destruct u as [len]. unfold run_updater. simpl currentIndex.
  destruct (currentIndex w >=? len - 1); reflexivity.
Qed.

Lemma fire_storage (now : Z) (ts : list Timer) (w : World) :
  storage (fire now ts w) = storage w.
Proof.
  revert w. induction ts as [|t ts IH]; intro w; simpl; [reflexivity|].
  destruct (due t <=? now); rewrite IH; [|reflexivity].
  apply setCurrentIndex_storage.
Qed.

(** X8.  Only a right swipe writes the store: along a history of left
    swipes, resets, waits (with the timers they run) and an unmount, the
    store of the page is never changed. *)
Theorem only_right_swipes_write (es : list Event) (w : World) :
  Forall (fun e => is_swipe_right e = false) es ->
  storage (run es w) = storage w.
Proof.
  intro H. revert w. induction H as [|e es He _ IH]; intro w;
    [reflexivity|].
  change (run (e :: es) w) with (run es (step e w)). rewrite IH.
  destruct e as [item|item| |dt|]; try discriminate; simpl;
    try reflexivity.
  unfold elapse. rewrite fire_storage. reflexivity.
Qed.

End GalleryHistories.

Section GalleryStore.
Import SwipeGallery.
Import savedItemsManager.
Context {J : JSON} {L : JSONLaws J}.

(** X9.  What a right swipe tells the user, on a page whose store can
    be read and holds the cards [l].  If the card's identifier is
    already saved, or if it is new but the store refuses the write, the
    store is left alone, nothing is tracked and the toast says the card
    is already in the saved items.  If it is new and the write goes
    through, the card is appended, two events are tracked and one
    success toast names the card; its action label is the label of the
    card's booking button for rooms, restaurants and experiences, and it
    has no action for the other types. *)
Theorem handleSwipeRight_reports (item : SwipeCardData) (w : World)
    (l : list SwipeCardData) :
  stored (storage w) l ->
  let w' := handleSwipeRight item w in
  let blob := JSON_stringify (VArr (map card_value (l ++ [item]))) in
  let already :=
    toast_info (title item ++ " is already in your saved items")%string in
  (In (id item) (map id l) \/
   setItem_accepts (storage w) KEY blob = false ->
   storage w' = storage w /\
   tracked w' = tracked w /\
   toasts w' = toasts w ++ [already]) /\
  (~ In (id item) (map id l) ->
   setItem_accepts (storage w) KEY blob = true ->
   stored (storage w') (l ++ [item]) /\
   tracked w' =
     tracked w ++
     [{| eventName := "gallery_swipe_right"; itemId := id item;
         itemType := Some (type_name (type item)) |};
      {| eventName := ("gallery_save_" ++ type_name (type item))%string;
         itemId := id item; itemType := None |}] /\
   exists emoji description : string,
     toasts w' =
       toasts w ++
       [toast_success (loved item emoji) (Some description)
          match type item with
          | room | restaurant | experience =>
              Some (SwipeCard.book_button_label item)
          | _ => None
          end]).
Proof.
  intros Hst w' blob already.
  pose proof (saveItem_on_cards (storage w) l item Hst) as S.
  cbv zeta in S. fold blob in S. split.
  - intros Hcase.
    assert (E : saveItem item (storage w) = (Ok false, storage w)).
    { rewrite S. destruct (find (same_id (id item)) l) eqn:F; [reflexivity|].
      destruct Hcase as [Hin|Hacc].
      - destruct (find_same_id_some _ _ Hin) as [c Hc]. congruence.
      - rewrite Hacc. reflexivity. }
    unfold w', handleSwipeRight. rewrite E. repeat split.
  - intros Hnot Hacc.
    rewrite (find_same_id_none _ _ Hnot), Hacc in S.
    unfold w', handleSwipeRight. rewrite S.
    destruct Hst as [R _].
    split; [|split].
    + destruct (type item); apply (stored_write (storage w) _ R).
    + destruct (type item); simpl; rewrite <- app_assoc; reflexivity.
    + unfold SwipeCard.book_button_label.
      destruct (type item); do 2 eexists; reflexivity.
Qed.

End GalleryStore.

Section GalleryView.
Import SwipeGallery.
Context {J : JSON}.

Lemma at_index_in_range {A : Type} (l : list A) (i : Z) :
  0 <= i < Z.of_nat (List.length l) ->
  exists a, at_index l i = Some a /\ nth_error l (Z.to_nat i) = Some a.
Proof.
  intros [Hlo Hhi]. unfold at_index.
  replace (i <? 0) with false by (symmetry; apply Z.ltb_ge; lia).
  destruct (nth_error l (Z.to_nat i)) as [a|] eqn:E; [eauto|].
  apply nth_error_None in E. lia.
Qed.

Lemma skipn_nth_error {A : Type} (l : list A) (n : nat) (a : A) :
  nth_error l n = Some a -> skipn n l = a :: skipn (S n) l.
Proof.
  revert l. induction n as [|n IH]; intros [|b l]; simpl; try discriminate.
  - intros [= ->]. reflexivity.
  - intro H. rewrite (IH l H). destruct l; reflexivity.
Qed.

(** In range, [slice(i, i + 3)] is the next three elements from [i], or
    those that are left. *)
Lemma slice_window {A : Type} (l : list A) (i : Z) :
  0 <= i < Z.of_nat (List.length l) ->
  slice l i (i + 3) =
  firstn (Z.to_nat (Z.min 3 (Z.of_nat (List.length l) - i)))
    (skipn (Z.to_nat i) l).
Proof.
  intros [Hlo Hhi]. unfold slice, slice_bound.
  replace (i <? 0) with false by (symmetry; apply Z.ltb_ge; lia).
  replace (i + 3 <? 0) with false by (symmetry; apply Z.ltb_ge; lia).
  f_equal; [|f_equal]; lia.
Qed.


Lemma with_positions_In (total i : Z) (l : list SwipeCardData)
    (p : CardProps) :
  In p (with_positions total i l) ->
  exists k : nat,
    nth_error l k = Some (card_data p) /\
    card_index p = i + Z.of_nat k /\
    card_totalCards p = total /\
    card_isActive p = (card_index p =? 0).
Proof.
  revert i. induction l as [|c l IH]; intro i; simpl; [intros []|].
  intros [<-|Hin].
  - exists 0%nat. simpl. repeat split. lia.
  - destruct (IH (i + 1) Hin) as (k & A & B & C & D).
    exists (S k). simpl. repeat split; auto. lia.
Qed.

Lemma with_positions_images (total i : Z) (l : list SwipeCardData) :
  map (fun p => Some (image (card_data p))) (with_positions total i l) =
  map (fun c => Some (image c)) l.
Proof.
  revert i. induction l as [|c l IH]; intro i; simpl; [reflexivity|].
  now rewrite IH.
Qed.

(** The stack of a cursor in range, spelled out. *)
Lemma card_stack_unfold (w : World) :
  in_range w ->
  exists (c : SwipeCardData) (m : nat),
    current_item w = Some c /\
    Z.of_nat (S m) = totalCards w /\
    card_stack w =
      {| card_data := c; card_index := 0;
         card_totalCards := totalCards w; card_isActive := true |}
      :: with_positions (totalCards w) 1
           (firstn m (skipn (S (Z.to_nat (currentIndex w))) (items w))).
Proof.
  intros Hr. pose proof Hr as [Hlo Hhi]. unfold items_length in Hhi.
  destruct (at_index_in_range (items w) (currentIndex w) (conj Hlo Hhi))
    as (c & Hc & Hn).
  unfold card_stack. rewrite (slice_window _ _ (conj Hlo Hhi)).
  fold (items_length w). fold (totalCards w).
  destruct (Z.to_nat (totalCards w)) as [|m] eqn:E;
    [unfold totalCards, items_length in E; lia|].
  exists c, m. split; [exact Hc|]. split; [lia|].
  rewrite (skipn_nth_error _ _ _ Hn). reflexivity.
Qed.

(** Every card of the stack sits at its position after the cursor. *)
Lemma card_stack_member (w : World) (p : CardProps) :
  in_range w ->
  In p (card_stack w) ->
  0 <= card_index p < totalCards w /\
  at_index (items w) (currentIndex w + card_index p)
    = Some (card_data p) /\
  card_totalCards p = totalCards w /\
  (card_isActive p = true <-> card_index p = 0).
Proof.
  intros Hr Hp. pose proof Hr as [Hlo Hhi].
  unfold card_stack in Hp. rewrite slice_window in Hp; [|exact Hr].
  fold (items_length w) in Hp. fold (totalCards w) in Hp.
  destruct (with_positions_In _ _ _ _ Hp) as (k & A & B & C & D).
  rewrite nth_error_firstn in A.
  destruct (Nat.ltb_spec k (Z.to_nat (totalCards w))) as [Hk|_];
    [|discriminate].
  rewrite nth_error_skipn in A.
  split; [lia|]. split; [|split; [exact C|]].
  - unfold at_index.
    replace (currentIndex w + card_index p <? 0) with false
      by (symmetry; apply Z.ltb_ge; lia).
    replace (Z.to_nat (currentIndex w + card_index p))
      with (Z.to_nat (currentIndex w) + k)%nat by lia.
    exact A.
  - rewrite D. apply Z.eqb_eq.
Qed.


(** X18.  In the rendered stack the active card lies above every other
    card (its [zIndex] is larger), and the cards behind it are shifted
    down by 0 or 8 pixels. *)
Theorem active_card_is_on_top (w : World) (p q : CardProps) :
  in_range w ->
  In p (card_stack w) ->
  In q (card_stack w) ->
  card_isActive p = true ->
  card_isActive q = false ->
  let z (c : CardProps) :=
    SwipeCard.zIndex (card_isActive c) (card_totalCards c) (card_index c) in
  z q < z p /\
  let offset :=
    SwipeCard.stackOffset (card_totalCards q) (card_index q) in
  offset = 0 \/ offset = 8.
Proof.
  intros Hr Hp Hq Ap Aq z.
  destruct (card_stack_member w p Hr Hp) as (Ip & _ & Tp & Pp).
  destruct (card_stack_member w q Hr Hq) as (Iq & _ & Tq & Pq).
  assert (Hi : card_index p = 0) by (apply Pp, Ap).
  assert (Hj : card_index q <> 0).
  { intro E. apply Pq in E. congruence. }
  assert (Htot : totalCards w <= 3) by (unfold totalCards; lia).
  unfold z, SwipeCard.zIndex, SwipeCard.stackOffset.
  rewrite Ap, Aq, Tp, Tq, Hi. split; lia.
Qed.

Lemma preload_loop_spec (fuel : nat) (i bound : Z)
    (cards : list SwipeCardData) :
  0 <= i ->
  bound <= Z.of_nat (List.length cards) ->
  Z.of_nat fuel = bound - i ->
  preload_loop fuel i bound cards =
  map (fun c => Some (image c)) (firstn fuel (skipn (Z.to_nat i) cards)).
Proof.
  revert i. induction fuel as [|fuel IH]; intros i Hi Hb Hf;
    [reflexivity|].
  cbn [preload_loop].
  replace (i <? bound) with true by (symmetry; apply Z.ltb_lt; lia).
  destruct (at_index_in_range cards i) as (c & -> & Hn); [lia|].
  rewrite (skipn_nth_error _ _ _ Hn). cbn [firstn map option_map].
  f_equal. rewrite IH; [|lia|exact Hb|lia].
  replace (Z.to_nat (i + 1)) with (S (Z.to_nat i)) by lia. reflexivity.
Qed.

(** X11.  With the cursor in range, the preload effect sets the image
    sources of exactly the cards behind the active one in the stack, in
    stack order: at most two, and none on the last card of the list. *)
Theorem preload_matches_stack (w : World) :
  in_range w ->
  preloadImages w =
    map (fun p => Some (image (card_data p))) (tl (card_stack w)) /\
  (currentIndex w = items_length w - 1 -> preloadImages w = []).
Proof.
  intro Hr. pose proof Hr as [Hlo Hhi].
  destruct (card_stack_unfold w Hr) as (c & m & _ & Hm & Hs).
  assert (P : preloadImages w =
              map (fun c => Some (image c))
                (firstn m (skipn (S (Z.to_nat (currentIndex w))) (items w)))).
  { unfold preloadImages.
    rewrite preload_loop_spec;
      unfold totalCards, items_length in *; try lia.
    replace (Z.to_nat (Z.min (currentIndex w + 3)
                         (Z.of_nat (List.length (items w)))
                       - (currentIndex w + 1))) with m by lia.
    replace (Z.to_nat (currentIndex w + 1))
      with (S (Z.to_nat (currentIndex w))) by lia.
    reflexivity. }
  split.
  - rewrite Hs. cbn [tl]. rewrite with_positions_images. exact P.
  - intro Hlast. rewrite P.
    replace m with 0%nat by (unfold totalCards in Hm; lia). reflexivity.
Qed.

Lemma step_items (e : Event) (w : World) : items (step e w) = items w.
Proof.
  destruct e as [item|item| |dt|]; simpl; try reflexivity.
  - destruct (handleSwipeRight_spec item w) as ((A & _) & _). exact A.
  - destruct (elapse_spec dt w) as (A & _). exact A.
Qed.

Lemma run_items (es : list Event) (w : World) : items (run es w) = items w.
Proof.
  revert w. induction es as [|e es IH]; intro w; [reflexivity|].
  change (run (e :: es) w) with (run es (step e w)).
  rewrite IH. apply step_items.
Qed.

Lemma fire_idle (now : Z) (ts : list Timer) (w : World) :
  items w = [] -> currentIndex w = 0 ->
  Forall (fun t => updater t = next_card 0) ts ->
  currentIndex (fire now ts w) = 0.
Proof.
  intros Hi Hc H. revert w Hi Hc.
  induction H as [|t ts Ht _ IH]; intros w Hi Hc; simpl; [exact Hc|].
  destruct (due t <=? now); [|apply IH; assumption].
  apply IH.
  - destruct (setCurrentIndex_frame (updater t) w) as (A & _).
    rewrite A. exact Hi.
  - rewrite Ht. unfold setCurrentIndex. simpl mounted.
    destruct (mounted w); [|exact Hc].
    unfold run_updater. simpl currentIndex. rewrite Hc. reflexivity.
Qed.

Lemma step_idle (e : Event) (w : World) : idle w -> idle (step e w).
Proof.
  intros (Hi & Hc & Ht). split; [rewrite step_items; exact Hi|].
  assert (Len : items_length w = 0)
    by (unfold items_length; rewrite Hi; reflexivity).
  destruct e as [item|item| |dt|]; cbn [step].
  - destruct (handleSwipeLeft_spec item w) as (_ & B & C).
    rewrite B, C. split; [exact Hc|]. apply Forall_app.
    split; [exact Ht|].
    constructor; [cbn [updater]; rewrite Len; reflexivity|constructor].
  - destruct (handleSwipeRight_spec item w) as (_ & B & C).
    rewrite B, C. split; [exact Hc|]. apply Forall_app.
    split; [exact Ht|].
    constructor; [cbn [updater]; rewrite Len; reflexivity|constructor].
  - split; [reflexivity|exact Ht].
  - destruct (elapse_spec dt w) as (_ & _ & _ & D & _). split.
    + unfold elapse. apply fire_idle; assumption.
    + rewrite D. apply Forall_forall. intros t Hin.
      apply filter_In in Hin. destruct Hin as [Hin _].
      rewrite Forall_forall in Ht. apply Ht. exact Hin.
  - split; [exact Hc|exact Ht].
Qed.

Lemma run_idle (es : list Event) (w : World) : idle w -> idle (run es w).
Proof.
  revert w. induction es as [|e es IH]; intros w Hw; [exact Hw|].
  change (run (e :: es) w) with (run es (step e w)).
  apply IH, step_idle, Hw.
Qed.

(** X12.  Along every history of a gallery, the empty-state panel (the
    one with the Start Over button) is on screen exactly when the
    gallery was given no cards; so whenever that button can be pressed,
    [handleReset] leaves the cursor where it is, at 0, and the progress
    computed for the bar is 1 / 0 * 100, that is [Infinity]. *)
Theorem empty_state_only_without_cards (cards : list SwipeCardData)
    (st : Storage) (es : list Event) :
  let w := run es (mount cards st) in
  (empty_state_shown w = true <-> cards = []) /\
  (empty_state_shown w = true ->
   currentIndex w = 0 /\ currentIndex (handleReset w) = currentIndex w /\
   progress w = Infinity false).
Proof.
  intro w.
  assert (Hit : items w = cards) by (unfold w; rewrite run_items; reflexivity).
  assert (Cases : (cards = [] /\ currentIndex w = 0) \/
                  (cards <> [] /\ in_range w)).
  { destruct cards as [|c cards].
    - left. split; [reflexivity|].
      assert (I : idle w).
      { apply run_idle. split; [reflexivity|]. split; [reflexivity|].
        constructor. }
      apply I.
    - right. split; [discriminate|].
      assert (W : well_formed w).
      { apply run_well_formed. split; [|constructor].
        unfold in_range, items_length. simpl. lia. }
      apply W. }
  unfold empty_state_shown, items_length. rewrite Hit.
  destruct Cases as [[-> Hc]|[Hne [Hlo Hhi]]].
  - rewrite Hc. simpl. split; [split; reflexivity|]. intros _.
    split; [reflexivity|]. split; [reflexivity|].
    unfold progress, items_length. rewrite Hit, Hc. reflexivity.
  - unfold items_length in Hhi. rewrite Hit in Hhi.
    replace (currentIndex w >=? Z.of_nat (List.length cards)) with false
      by (symmetry; apply geb_false_iff; lia).
    split; [|discriminate]. split; [discriminate|contradiction].
Qed.

End GalleryView.

Section Keyboard.
Import SwipeGallery.
Import savedItemsManager.
Context {J : JSON}.

(** X13.  With the cursor in range no key press makes the listener
    throw.  While the listener is registered and the view is the swipe
    view, the left and right arrows do what a left and a right swipe of
    the current card do, Enter hands the current card to [onBook] and
    changes nothing, and any other key does nothing.  In the grid view,
    or once the listener is removed, every key does nothing. *)
Theorem keyboard_acts_on_current_card (w : World) (key : string) :
  in_range w ->
  thrown (keydown key w) = None /\
  (keydown_listener w = true -> viewMode w = swipe ->
   exists c : SwipeCardData,
     current_item w = Some c /\
     keydown "ArrowLeft" w = quiet (handleSwipeLeft c w) /\
     keydown "ArrowRight" w = quiet (handleSwipeRight c w) /\
     keydown "Enter" w =
       {| after := w; booked := [Some c]; thrown := None |} /\
     (key <> "ArrowLeft" -> key <> "ArrowRight" -> key <> "Enter" ->
      keydown key w = quiet w)) /\
  (keydown_listener w = false \/ viewMode w = grid ->
   keydown key w = quiet w).
Proof.
  intros Hr. pose proof Hr as [Hlo Hhi]. unfold items_length in Hhi.
  destruct (at_index_in_range (items w) (currentIndex w) (conj Hlo Hhi))
    as (c & Hc & _).
  fold (current_item w) in Hc.
  split; [|split].
  - unfold keydown, handleKeyDown, swipe_left_current, swipe_right_current.
    rewrite Hc.
    destruct (keydown_listener w), (viewMode w); try reflexivity.
    destruct (String.eqb key "ArrowLeft"); [reflexivity|].
    destruct (String.eqb key "ArrowRight"); [reflexivity|].
    destruct (String.eqb key "Enter"); reflexivity.
  - intros Hl Hv. exists c. split; [exact Hc|].
    unfold keydown, handleKeyDown, swipe_left_current, swipe_right_current.
    rewrite Hl, Hv, Hc. repeat split.
    intros N1 N2 N3.
    apply String.eqb_neq in N1, N2, N3. rewrite N1, N2, N3. reflexivity.
  - intros [Hl|Hv]; unfold keydown, handleKeyDown.
    + rewrite Hl. reflexivity.
    + rewrite Hv. destruct (keydown_listener w); reflexivity.
Qed.

Lemma at_index_nil {A : Type} (i : Z) : at_index (@nil A) i = None.
Proof.
  unfold at_index. destruct (i <? 0); [reflexivity|].
  destruct (Z.to_nat i); reflexivity.
Qed.

Lemma saveItem_undefined_cases (st : Storage) (v : value) :
  getSavedItems st = (Ok v, st) ->
  saveItem_undefined st =
  match Array_find v has_id_of_undefined with
  | Throw _ => (Ok false, st)
  | Ok found =>
      if truthy found then (Ok false, st)
      else
        match spread_append v VNull with
        | Throw _ => (Ok false, st)
        | Ok updated =>
            if setItem_accepts st KEY (JSON_stringify updated)
            then (Ok true, write KEY (JSON_stringify updated) st)
            else (Ok false, st)
        end
  end.
Proof.
  intro G. unfold saveItem_undefined, try_catch, bind at 1. rewrite G.
  unfold bind, lift, ret, localStorage_setItem.
  destruct (Array_find v has_id_of_undefined) as [found|e]; [|reflexivity].
  destruct (truthy found); simpl; [reflexivity|].
  destruct (spread_append v VNull) as [updated|e]; [|reflexivity].
  destruct (setItem_accepts st KEY (JSON_stringify updated)); reflexivity.
Qed.

(** [saveItem(undefined)] on a store holding cards: with no card the
    callback of [find] never runs and an array holding [undefined] is
    written; with a card the callback throws and nothing is written. *)
Lemma saveItem_undefined_on_cards (st : Storage) (l : list SwipeCardData) :
  stored st l ->
  saveItem_undefined st =
  match l with
  | [] =>
      if setItem_accepts st KEY (JSON_stringify (VArr [VNull]))
      then (Ok true, write KEY (JSON_stringify (VArr [VNull])) st)
      else (Ok false, st)
  | _ :: _ => (Ok false, st)
  end.
Proof.
  intros [_ G]. rewrite (saveItem_undefined_cases st _ G).
  destruct l; reflexivity.
Qed.

End Keyboard.

Section KeyboardOnEmptyGallery.
Import SwipeGallery.
Import savedItemsManager.
Context {J : JSON} {L : JSONLaws J}.

(** X14.  In a gallery without cards, in the swipe view, both arrow
    keys make the listener throw a [TypeError], since there is no
    current card.  The left arrow changes nothing.  The right arrow
    calls [saveItem] first: no toast, event or timer follows, a store
    that holds cards is left alone, but on a store that holds none (and
    accepts the write) an array with one [null] entry is written, after
    which every [saveItem] and every [removeItem] returns [false]. *)
Theorem arrow_keys_without_cards (w : World) (l : list SwipeCardData) :
  items w = [] ->
  keydown_listener w = true ->
  viewMode w = swipe ->
  stored (storage w) l ->
  let left := keydown "ArrowLeft" w in
  let right := keydown "ArrowRight" w in
  (thrown left = Some TypeError /\ after left = w) /\
  (thrown right = Some TypeError /\
   toasts (after right) = toasts w /\
   tracked (after right) = tracked w /\
   timers (after right) = timers w) /\
  (l <> [] -> storage (after right) = storage w) /\
  (l = [] ->
   setItem_accepts (storage w) KEY (JSON_stringify (VArr [VNull])) = true ->
   let st' := storage (after right) in
   getSavedItems st' = (Ok (VArr [VNull]), st') /\
   (forall item : SwipeCardData, saveItem item st' = (Ok false, st')) /\
   (forall itemId : string, removeItem itemId st' = (Ok false, st'))).
Proof.
  intros Hi Hl Hv Hst left right.
  assert (Hc : current_item w = None)
    by (unfold current_item; rewrite Hi; apply at_index_nil).
  assert (EL : left = {| after := w; booked := []; thrown := Some TypeError |}).
  { unfold left, keydown, handleKeyDown, swipe_left_current.
    rewrite Hl, Hv, Hc. reflexivity. }
  assert (ER : right =
               {| after := with_storage (snd (saveItem_undefined (storage w))) w;
                  booked := []; thrown := Some TypeError |}).
  { unfold right, keydown, handleKeyDown, swipe_right_current.
    rewrite Hl, Hv, Hc. simpl.
    destruct (saveItem_undefined (storage w)). reflexivity. }
  pose proof (saveItem_undefined_on_cards (storage w) l Hst) as S.
  rewrite EL, ER. split; [split; reflexivity|].
  split; [repeat split|]. split.
  - intro Hne. simpl. rewrite S. destruct l; [contradiction|reflexivity].
  - intros -> Hacc st'. rewrite Hacc in S.
    assert (E : st' = write KEY (JSON_stringify (VArr [VNull])) (storage w))
      by (unfold st'; simpl; rewrite S; reflexivity).
    destruct Hst as [R _].
    assert (G : getSavedItems st' = (Ok (VArr [VNull]), st'))
      by (rewrite E; apply read_back, R).
    split; [exact G|]. split.
    + intro item. rewrite (saveItem_cases item st' _ G). reflexivity.
    + intro itemId. rewrite (removeItem_cases itemId st' _ G). reflexivity.
Qed.

End KeyboardOnEmptyGallery.

(* ================================================================== *)
(** * More on the swipe card *)
(* ================================================================== *)

Section CardHandlers.
Import SwipeCard.

Variable data : SwipeCardData.
Variable s : State.

(** X15.  A committed drag does what the buttons do: released fast or
    far enough, a drag to the right leaves the card as the Save button
    would (with the drag flag cleared first), and a drag to the left as
    the Skip button would. *)
Theorem committed_drag_is_a_button_press (offset velocity : Q) :
  (500 < Qabs velocity \/ 100 < Qabs offset)%Q ->
  ((0 < offset \/ 0 < velocity)%Q ->
   handleDragEnd data (sample offset velocity) s =
   handleSave data (setIsDragging false s)) /\
  (~ (0 < offset \/ 0 < velocity)%Q ->
   handleDragEnd data (sample offset velocity) s =
   handleSkip data (setIsDragging false s)).
Proof.
  intro Hstrong. apply strong_enough_iff in Hstrong.
  unfold handleDragEnd. simpl velocity_x. simpl offset_x. rewrite Hstrong.
  split; intro Hdir.
  - apply rightward_iff in Hdir. rewrite Hdir. reflexivity.
  - destruct (Num.gt (Fin offset) (of_Z 0) || Num.gt (Fin velocity) (of_Z 0))
      eqn:E; [|reflexivity].
    apply rightward_iff in E. contradiction.
Qed.

Lemma handleDragEnd_clears_drag (info : PanInfo) (s0 : State) :
  isDragging (handleDragEnd data info s0) = false /\
  showDetails (handleDragEnd data info s0) = showDetails s0.
Proof.
  unfold handleDragEnd.
  destruct (Num.gt (Math_abs (velocity_x info)) SWIPE_VELOCITY
            || Num.gt (Math_abs (offset_x info)) SWIPE_THRESHOLD);
    [|split; reflexivity].
  destruct (Num.gt (offset_x info) (of_Z 0)
            || Num.gt (velocity_x info) (of_Z 0)); split; reflexivity.
Qed.

(** X16.  A tap that arrives between the start and the end of a drag is
    dropped: it neither opens the details nor calls [onTap].  Once the
    drag has ended, however it ended, a tap is taken again: it calls
    [onTap] once and flips the details overlay; and two taps in a row
    leave the overlay as it was. *)
Theorem taps_are_dropped_while_dragging :
  handleTap data (handleDragStart s) = handleDragStart s /\
  (forall info : PanInfo,
     let s1 := handleDragEnd data info (handleDragStart s) in
     calls (handleTap data s1) = calls s1 ++ [onTap data] /\
     showDetails (handleTap data s1) = negb (showDetails s)) /\
  (isDragging s = false ->
   showDetails (handleTap data (handleTap data s)) = showDetails s /\
   calls (handleTap data (handleTap data s)) =
     calls s ++ [onTap data; onTap data]).
Proof.
  split; [reflexivity|]. split.
  - intros info s1.
    destruct (handleDragEnd_clears_drag info (handleDragStart s)) as [D S].
    fold s1 in D, S. unfold handleTap. rewrite D. simpl. rewrite S.
    split; reflexivity.
  - intro Hd. unfold handleTap. rewrite Hd. simpl. rewrite Hd. simpl.
    rewrite negb_involutive, <- app_assoc. split; reflexivity.
Qed.

End CardHandlers.

Section Categories.

(** X17.  On the five card types [getCategoryColor] and
    [getCategoryLabel] never take their default branch and give
    pairwise different colours and labels, so the badge of a card tells
    its type.  The badge of a grid tile has the same colour as the card
    for rooms, restaurants and experiences, and the default colour for
    facilities and events. *)
Theorem category_badges_tell_types_apart :
  (forall t : CardType,
     SwipeCard.getCategoryColor (type_name t) <> "bg-[#D4A14C]"%string /\
     SwipeCard.getCategoryLabel (type_name t) <> "Gallery"%string) /\
  (forall t1 t2 : CardType,
     SwipeCard.getCategoryColor (type_name t1) =
     SwipeCard.getCategoryColor (type_name t2) -> t1 = t2) /\
  (forall t1 t2 : CardType,
     SwipeCard.getCategoryLabel (type_name t1) =
     SwipeCard.getCategoryLabel (type_name t2) -> t1 = t2) /\
  (forall item : SwipeCardData,
     SwipeGallery.grid_badge_color item =
     match type item with
     | room | restaurant | experience =>
         SwipeCard.getCategoryColor (type_name (type item))
     | facility | event => "bg-[#D4A14C]"%string
     end).
Proof.
  split; [|split; [|split]].
  - intros []; split; discriminate.
  - intros [] []; simpl; intro H; try reflexivity; discriminate.
  - intros [] []; simpl; intro H; try reflexivity; discriminate.
  - intro item. unfold SwipeGallery.grid_badge_color.
    destruct (type item); reflexivity.
Qed.

End Categories.

(* ================================================================== *)
(** * The further theorems on concrete inputs *)
(* ================================================================== *)

Section ConcreteMore.
Import Sample.
Import savedItemsManager.

Lemma three_saved_stored :
  @stored RefJSON.codec three_saved [lotus_suite; rooftop; lotus_suite_again].
Proof. split; reflexivity. Qed.

Lemma getSavedByType_filters_witness :
  @getSavedByType RefJSON.codec "room" three_saved =
  (Ok (VArr (map card_value [lotus_suite; lotus_suite_again])), three_saved).
Proof.
  exact (@getSavedByType_filters RefJSON.codec three_saved
           [lotus_suite; rooftop; lotus_suite_again] "room"
           three_saved_stored).
Defined.

Lemma isSaved_iff_member_witness :
  exists b : bool,
    @isSaved RefJSON.codec "dining-7" three_saved = (Ok b, three_saved) /\
    (b = true <->
     In "dining-7"%string
       (map id [lotus_suite; rooftop; lotus_suite_again])).
Proof.
  exact (@isSaved_iff_member RefJSON.codec three_saved
           [lotus_suite; rooftop; lotus_suite_again] "dining-7"
           three_saved_stored).
Defined.

Lemma removeItem_undoes_saveItem_witness :
  exists st1 st2 : Storage,
    @saveItem RefJSON.codec rooftop empty_storage = (Ok true, st1) /\
    @removeItem RefJSON.codec (id rooftop) st1 = (Ok true, st2) /\
    @stored RefJSON.codec st2 [].
Proof.
  apply (@removeItem_undoes_saveItem RefJSON.codec RefJSON_laws
           empty_storage [] rooftop).
  - split; reflexivity.
  - intros [].
  - reflexivity.
Defined.

(** Removing from a store whose text is not JSON replaces the text. *)
Lemma removeItem_on_unreadable_store_witness :
  @removeItem RefJSON.codec "room-101" corrupt_storage =
  (Ok true, write KEY "[]" corrupt_storage).
Proof.
  apply (proj1 (proj2 (@removeItem_on_unreadable_store RefJSON.codec
                         "room-101" corrupt_storage))).
  right. exists "{oops"%string. split; reflexivity.
Defined.

Lemma null_entry_freezes_store_witness :
  @saveItem RefJSON.codec rooftop poisoned_storage =
    (Ok false, poisoned_storage) /\
  @removeItem RefJSON.codec "room-101" poisoned_storage =
    (Ok false, poisoned_storage) /\
  @getSavedByType RefJSON.codec "room" poisoned_storage =
    (Throw TypeError, poisoned_storage).
Proof.
  destruct (@null_entry_freezes_store RefJSON.codec poisoned_storage [VNull])
    as (A & B & C).
  - reflexivity.
  - left. reflexivity.
  - split; [apply A|]. split; [apply B|apply C].
Defined.

Lemma clean_store_stays_clean_witness :
  @clean RefJSON.codec
    (@apply_ops RefJSON.codec
       [save lotus_suite; remove "room-101"; save rooftop;
        save lotus_suite_again]
       empty_storage).
Proof.
  apply (@clean_store_stays_clean RefJSON.codec RefJSON_laws).
  split; [reflexivity|]. exists []. split; [reflexivity|constructor].
Defined.

(** Two swipes in a row on the first of three cards, a short wait, a
    third swipe, then the delay. *)
Lemma every_swipe_advances_once_witness :
  let w := SwipeGallery.mount [lotus_suite; rooftop; lotus_suite_again]
             empty_storage in
  let w1 :=
    @SwipeGallery.run RefJSON.codec
      [SwipeGallery.swipe_left lotus_suite;
       SwipeGallery.swipe_right lotus_suite;
       SwipeGallery.wait 120;
       SwipeGallery.swipe_left lotus_suite] w in
  SwipeGallery.currentIndex (SwipeGallery.elapse 300 w1) = 0 /\
  SwipeGallery.timers (SwipeGallery.elapse 300 w1) = [].
Proof.
  intros w w1.
  apply (@every_swipe_advances_once RefJSON.codec
           [SwipeGallery.swipe_left lotus_suite;
            SwipeGallery.swipe_right lotus_suite;
            SwipeGallery.wait 120;
            SwipeGallery.swipe_left lotus_suite] w 300).
  - reflexivity.
  - unfold SwipeGallery.in_range, SwipeGallery.items_length, w. simpl. lia.
  - reflexivity.
  - repeat constructor.
  - lia.
Defined.

Lemma only_right_swipes_write_witness :
  let w := SwipeGallery.mount [lotus_suite; rooftop] empty_storage in
  SwipeGallery.storage
    (@SwipeGallery.run RefJSON.codec
       [SwipeGallery.swipe_left lotus_suite; SwipeGallery.wait 300;
        SwipeGallery.reset; SwipeGallery.teardown] w) =
  empty_storage.
Proof.
  intro w.
  apply (@only_right_swipes_write RefJSON.codec
           [SwipeGallery.swipe_left lotus_suite; SwipeGallery.wait 300;
            SwipeGallery.reset; SwipeGallery.teardown] w).
  repeat constructor.
Defined.

(** A right swipe on a store that refuses the write. *)
Lemma handleSwipeRight_reports_witness :
  let w := SwipeGallery.mount [lotus_suite] full_storage in
  let w' := @SwipeGallery.handleSwipeRight RefJSON.codec lotus_suite w in
  SwipeGallery.storage w' = full_storage /\
  SwipeGallery.tracked w' = [] /\
  SwipeGallery.toasts w' =
    [SwipeGallery.toast_info "Lotus Suite is already in your saved items"].
Proof.
  intros w w'.
  apply (proj1 (@handleSwipeRight_reports RefJSON.codec RefJSON_laws
                  lotus_suite w [] (conj eq_refl eq_refl))).
  right. reflexivity.
Defined.


Lemma preload_matches_stack_witness :
  let w := SwipeGallery.mount [lotus_suite; rooftop; lotus_suite_again]
             empty_storage in
  SwipeGallery.preloadImages w =
  [Some "/rooftop.jpg"%string; Some "/lotus_suite_2.jpg"%string].
Proof.
  intro w.
  destruct (preload_matches_stack w) as [A _]; [|exact A].
  unfold SwipeGallery.in_range, SwipeGallery.items_length, w. simpl. lia.
Defined.

Lemma active_card_is_on_top_witness :
  let w := SwipeGallery.mount [lotus_suite; rooftop; lotus_suite_again]
             empty_storage in
  let top :=
    {| SwipeGallery.card_data := lotus_suite; SwipeGallery.card_index := 0;
       SwipeGallery.card_totalCards := 3;
       SwipeGallery.card_isActive := true |} in
  let back :=
    {| SwipeGallery.card_data := lotus_suite_again;
       SwipeGallery.card_index := 2; SwipeGallery.card_totalCards := 3;
       SwipeGallery.card_isActive := false |} in
  SwipeCard.zIndex false 3 2 < SwipeCard.zIndex true 3 0.
Proof.
  intros w top back.
  apply (active_card_is_on_top w top back).
  - unfold SwipeGallery.in_range, SwipeGallery.items_length, w. simpl. lia.
  - left. reflexivity.
  - right. right. left. reflexivity.
  - reflexivity.
  - reflexivity.
Defined.

Lemma keyboard_acts_on_current_card_witness :
  let w := SwipeGallery.mount [lotus_suite; rooftop] empty_storage in
  SwipeGallery.thrown (@SwipeGallery.keydown RefJSON.codec "ArrowRight" w)
    = None /\
  @SwipeGallery.keydown RefJSON.codec "Escape"
    (SwipeGallery.setViewMode SwipeGallery.grid w) =
  SwipeGallery.quiet (SwipeGallery.setViewMode SwipeGallery.grid w).
Proof.
  intro w. split.
  - apply (@keyboard_acts_on_current_card RefJSON.codec w "ArrowRight").
    unfold SwipeGallery.in_range, SwipeGallery.items_length, w. simpl. lia.
  - apply (@keyboard_acts_on_current_card RefJSON.codec
             (SwipeGallery.setViewMode SwipeGallery.grid w) "Escape").
    + unfold SwipeGallery.in_range, SwipeGallery.items_length, w. simpl. lia.
    + right. reflexivity.
Defined.

(** The right arrow on a gallery without cards and a store without
    text. *)
Lemma arrow_keys_without_cards_witness :
  let w := SwipeGallery.mount [] empty_storage in
  let right := @SwipeGallery.keydown RefJSON.codec "ArrowRight" w in
  let st' := SwipeGallery.storage (SwipeGallery.after right) in
  SwipeGallery.thrown right = Some TypeError /\
  data st' KEY = Some "[null]"%string /\
  @saveItem RefJSON.codec lotus_suite st' = (Ok false, st').
Proof.
  intros w right st'.
  destruct (@arrow_keys_without_cards RefJSON.codec RefJSON_laws w [])
    as (_ & (A & _) & _ & B); try reflexivity.
  - split; reflexivity.
  - destruct (B eq_refl eq_refl) as (_ & C & _).
    split; [exact A|]. split; [reflexivity|apply C].
Defined.

Lemma committed_drag_is_a_button_press_witness :
  SwipeCard.handleDragEnd lotus_suite (SwipeCard.sample 10 600) dragging =
  SwipeCard.handleSave lotus_suite (SwipeCard.setIsDragging false dragging).
Proof.
  apply (committed_drag_is_a_button_press lotus_suite dragging 10 600);
    [left|right]; vm_compute; reflexivity.
Defined.

Lemma history_in_range_witness :
  let w :=
    @SwipeGallery.run RefJSON.codec
      [SwipeGallery.swipe_right lotus_suite; SwipeGallery.wait 300;
       SwipeGallery.swipe_left rooftop; SwipeGallery.wait 300]
      (SwipeGallery.mount [lotus_suite; rooftop] empty_storage) in
  SwipeGallery.in_range w.
Proof.
  intro w.
  destruct (@history_in_range RefJSON.codec [lotus_suite; rooftop]
              empty_storage
              [SwipeGallery.swipe_right lotus_suite; SwipeGallery.wait 300;
               SwipeGallery.swipe_left rooftop; SwipeGallery.wait 300])
    as [A _]; [discriminate|exact A].
Defined.

End ConcreteMore.
